(** * go-nitro: crypto signatures, guarantee metadata and the engine's handlers

    A shallow embedding of
    - [crypto] (Signature, SignEthereumMessage, RecoverEthereumMessageSigner,
      the JSON form of a signature),
    - [outcome] (GuaranteeMetadata and its abi encoding),
    - [engine] (handleMessage, handleChainEvent, handleAPIEvent),
    - [safesync] (the typed map), [rpc] (the client's requests and its
      response handler), the script that starts the rpc servers, and the
      helpers of the client tests,
    followed by the properties proved about them.

    Go's [[]byte] and [string] are both sequences of bytes and are modelled
    as [list byte]; a Go [error] result is the [Err] case of [result]. *)

From Stdlib Require Import ZArith NArith Lia List.
From Stdlib Require Strings.Byte.
From Stdlib Require Import Strings.String DecimalString.
From Stdlib Require DecimalN.
From stdpp Require Import base decidable option list gmap strings.

Local Open Scope N_scope.

Abbreviation byte := Byte.byte.
Abbreviation bytes := (list Byte.byte).

(** ** Go values *)

Module Go.

#[global] Instance byte_eq_dec : EqDecision byte := Byte.byte_eq_dec.

#[global] Instance byte_countable : Countable byte :=
  inj_countable Byte.to_N Byte.of_N Byte.of_to_N.

(** [byte(n)]: conversion of an integer to uint8 keeps the low 8 bits. *)
Definition byte_of_N (n : N) : byte :=
  match Byte.of_N (n mod 256) with
  | Some b => b
  | None => Byte.x00
  end.

(** uint8 addition and subtraction wrap around. *)
Definition byte_add (a b : byte) : byte :=
  byte_of_N (Byte.to_N a + Byte.to_N b).

Definition byte_sub (a b : byte) : byte :=
  byte_of_N (Byte.to_N a + 256 - Byte.to_N b).

(** A string literal as the bytes of a Go string. *)
Definition str (s : string) : bytes := String.list_byte_of_string s.

(** [fmt.Sprintf("%d", n)] for a non-negative [n]. *)
Definition decimal (n : N) : bytes :=
  str (NilEmpty.string_of_uint (N.to_uint n)).

(** [s[i:j]] on a slice whose length is at least [j]. *)
Definition slice (s : bytes) (i j : nat) : bytes := take (j - i) (drop i s).

(** The errors that the modelled functions return. *)
Inductive error : Type :=
| ErrJSON                  (* encoding/json: a *SyntaxError or an
                              *UnmarshalTypeError *)
| ErrEmptyString           (* hexutil: empty hex string *)
| ErrMissingPrefix         (* hexutil: hex string without 0x prefix *)
| ErrOddLength             (* hexutil: hex string of odd length *)
| ErrSyntax                (* hexutil: invalid hex string *)
| ErrSignatureLength (received : nat)
    (* signature must be 65 bytes long or a zero string, received %d bytes *)
| ErrAbiEmpty              (* abi: unmarshalling an empty string *)
| ErrAbiLength (have need : nat)
    (* abi: cannot marshal in to go type: length insufficient *)
| ErrLibrary (code : N)    (* an error of a library taken as a parameter *)
| ErrStore                 (* a failed store write *)
| Fatal                    (* log.Fatal: the process exits *)
| Panic.                   (* a run-time panic (index or slice out of range) *)

Inductive result (A : Type) : Type :=
| Ok (a : A)
| Err (e : error).
Arguments Ok {A} a.
Arguments Err {A} e.

Definition bind {A B} (r : result A) (k : A -> result B) : result B :=
  match r with
  | Ok a => k a
  | Err e => Err e
  end.

End Go.
Export Go.

Notation "'do' x <- r ; k" := (Go.bind r (fun x => k))
  (at level 10, x name, r at level 100, k at level 200,
   format "'[v' 'do'  x  <-  r ; '/' k ']'").

(** ** encoding/hex and go-ethereum's hexutil *)

Module hexutil.

(** hex.hextable = "0123456789abcdef" *)
Definition hextable : bytes := str "0123456789abcdef".

Definition hexdigit (n : N) : byte := nth (N.to_nat n) hextable Byte.x00.

(** hex.Encode: two digits per byte, high nibble first. *)
Fixpoint hex_Encode (src : bytes) : bytes :=
  match src with
  | [] => []
  | v :: rest =>
      hexdigit (Byte.to_N v / 16) :: hexdigit (Byte.to_N v mod 16)
        :: hex_Encode rest
  end.

(** hexutil.Encode *)
Definition Encode (b : bytes) : bytes := str "0x" ++ hex_Encode b.

(** hex.reverseHexTable: the value of a hex digit of either case, [None]
    for the table's 0xff entries. *)
Definition fromHexChar (c : byte) : option N :=
  let n := Byte.to_N c in
  if (48 <=? n) && (n <=? 57) then Some (n - 48)
  else if (97 <=? n) && (n <=? 102) then Some (n - 87)
  else if (65 <=? n) && (n <=? 70) then Some (n - 55)
  else None.

(** hex.DecodeString, with its errors as hexutil.mapError renders them:
    pairs are decoded left to right; an invalid character is reported
    before an odd length. *)
Fixpoint hex_DecodeString (src : bytes) : result bytes :=
  match src with
  | [] => Ok []
  | [p] =>
      match fromHexChar p with
      | None => Err ErrSyntax
      | Some _ => Err ErrOddLength
      end
  | p :: q :: rest =>
      match fromHexChar p, fromHexChar q with
      | None, _ | _, None => Err ErrSyntax
      | Some a, Some b =>
          do tl <- hex_DecodeString rest;
          Ok (byte_of_N (a * 16 + b) :: tl)
      end
  end.

Definition has0xPrefix (input : bytes) : bool :=
  match input with
  | c0 :: c1 :: _ =>
      bool_decide (c0 = Byte.x30)
      && (bool_decide (c1 = Byte.x78) || bool_decide (c1 = Byte.x58))
  | _ => false
  end.

(** hexutil.Decode *)
Definition Decode (input : bytes) : result bytes :=
  if bool_decide (length input = 0%nat) then Err ErrEmptyString
  else if negb (has0xPrefix input) then Err ErrMissingPrefix
  else hex_DecodeString (drop 2 input).

End hexutil.

(** ** encoding/json, for a value of type string *)

Module json.

Definition quote : byte := Byte.x22.      (* the double quote *)
Definition backslash : byte := Byte.x5c.

(** encoding/json's htmlSafeSet on ASCII: every printable character
    but the double quote, the backslash, and the three characters
    that HTML escaping rewrites. *)
Definition htmlSafe (c : byte) : bool :=
  let n := Byte.to_N c in
  (32 <=? n) && (n <? 128)
  && negb (n =? 34) && negb (n =? 92)
  && negb (n =? 60) && negb (n =? 62) && negb (n =? 38).

(** The bytes that [json.Marshal] copies and the scanner reads back as
    they are. *)
Definition plain (c : byte) : Prop := htmlSafe c = true.

(** One byte of a string as [json.Marshal] writes it. A byte of a
    multi-byte rune is copied (the strings marshalled here are ASCII). *)
Definition escape (c : byte) : bytes :=
  let n := Byte.to_N c in
  if htmlSafe c || (128 <=? n) then [c]
  else if (n =? 92) || (n =? 34) then [backslash; c]
  else if n =? 10 then [backslash; Byte.x6e]
  else if n =? 13 then [backslash; Byte.x72]
  else if n =? 9 then [backslash; Byte.x74]
  else backslash :: str "u00"
         ++ [hexutil.hexdigit (n / 16); hexutil.hexdigit (n mod 16)].

(** [json.Marshal(s)] for a string [s]; it never fails. *)
Definition Marshal_string (s : bytes) : bytes :=
  quote :: flat_map escape s ++ [quote].

Definition isSpace (c : byte) : bool :=
  let n := Byte.to_N c in
  (n =? 32) || (n =? 9) || (n =? 13) || (n =? 10).

Fixpoint skipSpace (s : bytes) : bytes :=
  match s with
  | c :: rest => if isSpace c then skipSpace rest else s
  | [] => []
  end.

(** getu4: the code unit of a [\uXXXX] escape at the head of [s]. *)
Definition getu4 (s : bytes) : option N :=
  match s with
  | b :: u :: h1 :: h2 :: h3 :: h4 :: _ =>
      if bool_decide (b = backslash) && bool_decide (u = Byte.x75) then
        match hexutil.fromHexChar h1, hexutil.fromHexChar h2,
              hexutil.fromHexChar h3, hexutil.fromHexChar h4 with
        | Some a, Some b, Some c, Some d =>
            Some (((a * 16 + b) * 16 + c) * 16 + d)
        | _, _, _, _ => None
        end
      else None
  | _ => None
  end.

Definition ReplacementChar : N := 65533.   (* U+FFFD *)

Definition IsSurrogate (r : N) : bool := (55296 <=? r) && (r <? 57344).

(** utf16.DecodeRune *)
Definition utf16_DecodeRune (r1 r2 : N) : N :=
  if (55296 <=? r1) && (r1 <? 56320) && (56320 <=? r2) && (r2 <? 57344)
  then (r1 - 55296) * 1024 + (r2 - 56320) + 65536
  else ReplacementChar.

(** utf8.EncodeRune *)
Definition EncodeRune (r : N) : bytes :=
  if r <=? 127 then [byte_of_N r]
  else if r <=? 2047 then
    [byte_of_N (192 + r / 64); byte_of_N (128 + r mod 64)]
  else if IsSurrogate r || (1114111 <? r) then
    [Byte.xef; Byte.xbf; Byte.xbd]
  else if r <=? 65535 then
    [byte_of_N (224 + r / 4096); byte_of_N (128 + (r / 64) mod 64);
     byte_of_N (128 + r mod 64)]
  else
    [byte_of_N (240 + r / 262144); byte_of_N (128 + (r / 4096) mod 64);
     byte_of_N (128 + (r / 64) mod 64); byte_of_N (128 + r mod 64)].

(** The character that follows a backslash in a two-character escape. *)
Definition simpleEscape (c : byte) : option byte :=
  let n := Byte.to_N c in
  if (n =? 34) || (n =? 92) || (n =? 47) then Some c
  else if n =? 98 then Some Byte.x08
  else if n =? 102 then Some Byte.x0c
  else if n =? 110 then Some Byte.x0a
  else if n =? 114 then Some Byte.x0d
  else if n =? 116 then Some Byte.x09
  else None.

(** The scanner and [unquote] in one pass over the text that follows
    the opening quote: the decoded string and the input left after the
    closing quote, or [None] for text the scanner rejects. A raw byte
    above 0x7f is copied (Go re-encodes the rune it belongs to). Every
    step consumes input, so [length s] steps are enough. *)
Fixpoint unquoteBody (fuel : nat) (s : bytes) : option (bytes * bytes) :=
  match fuel, s with
  | O, _ | _, [] => None
  | Datatypes.S fuel, c :: rest =>
      if bool_decide (c = quote) then Some ([], rest)
      else if bool_decide (c = backslash) then
        match rest with
        | [] => None
        | e :: rest' =>
            if bool_decide (e = Byte.x75) then
              match getu4 s with
              | None => None
              | Some rr =>
                  let s6 := drop 6 s in
                  let low := getu4 s6 in
                  let dec := utf16_DecodeRune rr (default 0 low) in
                  if IsSurrogate rr && bool_decide (is_Some low)
                     && negb (dec =? ReplacementChar)
                  then
                    '(out, tl) ← unquoteBody fuel (drop 6 s6);
                    Some (EncodeRune dec ++ out, tl)
                  else
                    '(out, tl) ← unquoteBody fuel s6;
                    Some (EncodeRune
                            (if IsSurrogate rr then ReplacementChar else rr)
                            ++ out, tl)
              end
            else
              b ← simpleEscape e;
              '(out, tl) ← unquoteBody fuel rest';
              Some (b :: out, tl)
        end
      else if Byte.to_N c <? 32 then None
      else
        '(out, tl) ← unquoteBody fuel rest;
        Some (c :: out, tl)
  end.

Definition allSpace (s : bytes) : bool := forallb isSpace s.

(** [json.Unmarshal(b, &hex)] for [var hex string], as the value of
    [hex] afterwards: a JSON string is unquoted, [null] leaves [hex]
    empty, and any other text is an error (a syntax error, or a type
    error for a JSON value that is not a string). *)
Definition Unmarshal_string (b : bytes) : result bytes :=
  match skipSpace b with
  | [] => Err ErrJSON
  | c :: rest =>
      if bool_decide (c = quote) then
        match unquoteBody (length rest) rest with
        | Some (out, tl) =>
            if allSpace tl then Ok out else Err ErrJSON
        | None => Err ErrJSON
        end
      else if bool_decide (take 4 (c :: rest) = str "null")
              && allSpace (drop 4 (c :: rest)) then Ok []
      else Err ErrJSON
  end.

End json.

(** ** package crypto *)

Module crypto.

(** types.Address = common.Address, a [20]byte. *)
Definition AddressLength : nat := 20.

(** The primitives of go-ethereum that the package calls: Keccak256,
    secp256k1.Sign, secp256k1.RecoverPubkey, crypto.UnmarshalPubkey and
    crypto.PubkeyToAddress, and, for stating what a secret key's address
    is, the public key that [crypto.ToECDSA] derives from a secret key
    and its serialisation by [crypto.FromECDSAPub]. *)
Class Primitives : Type := {
  PublicKey : Type;
  Keccak256 : bytes -> bytes;
  secp256k1_Sign : bytes -> bytes -> result bytes;
  secp256k1_RecoverPubkey : bytes -> bytes -> result bytes;
  UnmarshalPubkey : bytes -> result PublicKey;
  PubkeyToAddress : PublicKey -> bytes;
  PublicKeyOf : bytes -> PublicKey;
  FromECDSAPub : PublicKey -> bytes;
}.

(** What go-ethereum documents of them: a signature is 65 bytes
    [R || S || V] with V 0 or 1; recovery from a signature returns the
    signer's serialised public key; UnmarshalPubkey inverts
    FromECDSAPub. *)
Record PrimitivesLaws (P : Primitives) : Prop := {
  Sign_format : forall digest key sig,
    secp256k1_Sign digest key = Ok sig ->
    length sig = 65%nat /\
    (sig !! 64%nat = Some Byte.x00 \/ sig !! 64%nat = Some Byte.x01);
  Recover_Sign : forall digest key sig,
    secp256k1_Sign digest key = Ok sig ->
    secp256k1_RecoverPubkey digest sig = Ok (FromECDSAPub (PublicKeyOf key));
  Unmarshal_FromECDSAPub : forall pub,
    UnmarshalPubkey (FromECDSAPub pub) = Ok pub;
}.

(** Signature is an ECDSA signature *)
Record Signature : Type := { R : bytes; S : bytes; V : byte }.

(** The zero value [Signature{}]. *)
Definition zeroSignature : Signature :=
  {| R := []; S := []; V := Byte.x00 |}.

(** splitSignature takes a 65 bytes signature in the [R||S||V] format and
    returns the individual components; indexing a shorter slice panics. *)
Definition SplitSignature (concatenatedSignature : bytes) : result Signature :=
  match concatenatedSignature !! 64%nat with
  | Some v =>
      Ok {| R := slice concatenatedSignature 0 32;
            S := slice concatenatedSignature 32 64;
            V := v |}
  | None => Err Panic
  end.

(** joinSignature takes a Signature and returns the concatenatedSignature
    in the [R||S||V] format *)
Definition joinSignature (signature : Signature) : bytes :=
  ([] ++ R signature) ++ S signature ++ [V signature].

Definition ToHexString (s : Signature) : bytes :=
  hexutil.Encode (joinSignature s).

Definition Equal (s1 s2 : Signature) : bool :=
  bool_decide (S s1 = S s2) && bool_decide (R s1 = R s2)
  && bool_decide (V s1 = V s2).

Definition MarshalJSON (s : Signature) : result bytes :=
  let joined := joinSignature s in
  let hex := hexutil.Encode joined in
  Ok (json.Marshal_string hex).

(** allZero returns true if all bytes in the slice are zero false
    otherwise *)
Fixpoint allZero (s : bytes) : bool :=
  match s with
  | [] => true
  | v :: rest => if bool_decide (v <> Byte.x00) then false else allZero rest
  end.

(** [(s *Signature) UnmarshalJSON(b)]: the receiver after the call and
    the error returned ([None] for nil). *)
Definition UnmarshalJSON (s : Signature) (b : bytes)
  : Signature * option error :=
  match json.Unmarshal_string b with
  | Err err => (s, Some err)
  | Ok hex =>
      match hexutil.Decode hex with
      | Err err => (s, Some err)
      | Ok joined =>
          if allZero joined then (s, None)
          else if bool_decide (length joined <> 65%nat) then
            (s, Some (ErrSignatureLength (length joined)))
          else
            match joined !! 64%nat with
            | Some v =>
                ({| R := slice joined 0 32; S := slice joined 32 64;
                    V := v |}, None)
            | None => (s, Some Panic)
            end
      end
  end.

Section WithPrimitives.
Context {P : Primitives}.

(** computeEthereumSignedMessageDigest accepts an arbitrary message,
    prepends a known message, and hashes the result using keccak256. *)
Definition computeEthereumSignedMessageDigest (message : bytes) : bytes :=
  Keccak256
    ((Byte.x19 :: str "Ethereum Signed Message:" ++ [Byte.x0a])
       ++ decimal (N.of_nat (length message)) ++ message).

Definition SignEthereumMessage (message secretKey : bytes)
  : result Signature :=
  let digest := computeEthereumSignedMessageDigest message in
  do concatenatedSignature <- secp256k1_Sign digest secretKey;
  do sig <- SplitSignature concatenatedSignature;
  (* This step is necessary to remain compatible with the ecrecover
     precompile *)
  Ok (if Byte.to_N (V sig) <? 27
      then {| R := R sig; S := S sig; V := byte_add (V sig) Byte.x1b |}
      else sig).

(** The signature handed to recovery: V lowered by 27 when it is at
    least 27. *)
Definition recoveryForm (signature : Signature) : Signature :=
  if 27 <=? Byte.to_N (V signature)
  then {| R := R signature; S := S signature;
          V := byte_sub (V signature) Byte.x1b |}
  else signature.

Definition RecoverEthereumMessageSigner (message : bytes)
    (signature : Signature) : result bytes :=
  let sig := recoveryForm signature in
  let digest := computeEthereumSignedMessageDigest message in
  do pubKey <- secp256k1_RecoverPubkey digest (joinSignature sig);
  do ecdsaPubKey <- UnmarshalPubkey pubKey;
  Ok (PubkeyToAddress ecdsaPubKey).

End WithPrimitives.

End crypto.

(** ** package outcome: guarantee metadata *)

Module outcome.

(** A Guarantee is an Allocation with AllocationType ==
    GuaranteeAllocationType and Metadata = encode(GuaranteeMetaData).
    Both fields are types.Address, a [20]byte. *)
Record GuaranteeMetadata : Type := { Left : bytes; Right : bytes }.

(** rawGuaranteeMetadataType: what abi's Unpack returns for
    guaranteeMetadataTy. *)
Record rawGuaranteeMetadataType : Type := { rawLeft : bytes; rawRight : bytes }.

(** common.LeftPadBytes *)
Definition LeftPadBytes (slice : bytes) (l : nat) : bytes :=
  if bool_decide (l <= length slice)%nat then slice
  else replicate (l - length slice) Byte.x00 ++ slice.

(** common.BytesToAddress: the last 20 bytes, left-padded with zeros. *)
Definition BytesToAddress (b : bytes) : bytes :=
  let b :=
    if bool_decide (crypto.AddressLength < length b)%nat
    then drop (length b - crypto.AddressLength) b else b in
  replicate (crypto.AddressLength - length b) Byte.x00 ++ b.

(** Encode returns the abi.encoded GuaranteeMetadata: the static tuple
    (address, address) packs to its two elements, 32 bytes each. *)
Definition Encode (m : GuaranteeMetadata) : result bytes :=
  Ok (LeftPadBytes (Left m) 32 ++ LeftPadBytes (Right m) 32).

(** abi's toGoType at an address element. *)
Definition toGoType_address (index : nat) (output : bytes) : result bytes :=
  if bool_decide (length output < index + 32)%nat
  then Err (ErrAbiLength (length output) (index + 32))
  else Ok (BytesToAddress (slice output index (index + 32))).

(** [abi.Arguments{{Type: guaranteeMetadataTy}}.Unpack], the first (and
    only) value it returns. *)
Definition Unpack (data : bytes) : result rawGuaranteeMetadataType :=
  if bool_decide (length data = 0%nat) then Err ErrAbiEmpty
  else if bool_decide (length data < 32)%nat
  then Err (ErrAbiLength (length data) 32)
  else
    do l <- toGoType_address 0 data;
    do r <- toGoType_address 32 data;
    Ok {| rawLeft := l; rawRight := r |}.

(** [json.Marshal(r)]: an address is marshalled as the text of its
    0x-prefixed hex form. *)
Definition Marshal_raw (r : rawGuaranteeMetadataType) : bytes :=
  str "{" ++ json.Marshal_string (str "Left") ++ str ":"
    ++ json.Marshal_string (hexutil.Encode (rawLeft r)) ++ str ","
    ++ json.Marshal_string (str "Right") ++ str ":"
    ++ json.Marshal_string (hexutil.Encode (rawRight r)) ++ str "}".

Definition expect (lit s : bytes) : option bytes :=
  if bool_decide (take (length lit) s = lit)
  then Some (drop (length lit) s) else None.

(** The text of a JSON string without escapes, and the input after its
    closing quote. *)
Fixpoint scanPlainString (s : bytes) : option (bytes * bytes) :=
  match s with
  | [] => None
  | c :: rest =>
      if bool_decide (c = json.quote) then Some ([], rest)
      else if bool_decide (c = json.backslash) || (Byte.to_N c <? 32)
      then None
      else '(out, tl) ← scanPlainString rest; Some (c :: out, tl)
  end.

(** hexutil.UnmarshalFixedText into an array of [n] bytes. *)
Definition UnmarshalFixedText (input : bytes) (n : nat) : option bytes :=
  if hexutil.has0xPrefix input then
    match hexutil.hex_DecodeString (drop 2 input) with
    | Ok b => if bool_decide (length b = n) then Some b else None
    | Err _ => None
    end
  else None.

Definition addressMember (name : string) (s : bytes)
  : option (bytes * bytes) :=
  s ← expect (json.Marshal_string (str name) ++ str ":" ++ [json.quote]) s;
  '(text, tl) ← scanPlainString s;
  a ← UnmarshalFixedText text crypto.AddressLength;
  Some (a, tl).

(** [json.Unmarshal(j, &guaranteeMetadata)] on the object layout that
    [json.Marshal] writes for rawGuaranteeMetadataType: the two members
    in order, no white space. [None] is an error. *)
Definition Unmarshal_GuaranteeMetadata (j : bytes) : option GuaranteeMetadata :=
  s ← expect (str "{") j;
  '(l, s) ← addressMember "Left" s;
  s ← expect (str ",") s;
  '(r, s) ← addressMember "Right" s;
  s ← expect (str "}") s;
  if bool_decide (s = []) then Some {| Left := l; Right := r |} else None.

(** convertToGuaranteeMetadata converts a rawGuaranteeMetadataType to a
    GuaranteeMetadata *)
Definition convertToGuaranteeMetadata (r : rawGuaranteeMetadataType)
  : result GuaranteeMetadata :=
  let j := Marshal_raw r in
  match Unmarshal_GuaranteeMetadata j with
  | Some guaranteeMetadata => Ok guaranteeMetadata
  | None => Err Fatal
  end.

(** Decode returns a GuaranteeMetaData from an abi encoding *)
Definition DecodeIntoGuaranteeMetadata (m : bytes) : result GuaranteeMetadata :=
  do unpacked <- Unpack m;
  convertToGuaranteeMetadata unpacked.

End outcome.

(** ** package engine *)

Module engine.

(** protocols.ObjectiveId is a string. *)
Abbreviation ObjectiveId := bytes.

(** The types of package protocols and package types that the engine
    passes around without looking inside, with the zero value of those
    it leaves unset in a struct literal. *)
Class Types : Type := {
  Sigs : Type;                   (* the signatures a message carries *)
  Funds : Type;                  (* types.Funds, the holdings of a channel *)
  AdjudicationStatus : Type;     (* protocols.AdjudicationStatus *)
  Destination : Type;            (* types.Destination, a channel id *)
  SecretKey : Type;              (* the channel secret key *)
  ChainTransaction : Type;       (* protocols.ChainTransaction *)
  WaitingFor : Type;             (* protocols.WaitingFor *)
  WaitingFor_eq_dec :: EqDecision WaitingFor;
  zeroSigs : Sigs;
  zeroFunds : Funds;
  zeroAdjudicationStatus : AdjudicationStatus;
}.

Section Protocols.
Context {T : Types}.

(** protocols.Message *)
Record Message : Type := {
  Message_ObjectiveId : ObjectiveId;
  Message_Sigs : Sigs;
}.

(** chain.Event *)
Record Event : Type := {
  Event_ChannelId : Destination;
  Event_Holdings : Funds;
  Event_AdjudicationStatus : AdjudicationStatus;
}.

(** protocols.ObjectiveEvent *)
Record ObjectiveEvent : Type := {
  ObjectiveEvent_Sigs : Sigs;
  ObjectiveEvent_Holdings : Funds;
  ObjectiveEvent_AdjudicationStatus : AdjudicationStatus;
}.

(** protocols.SideEffects *)
Record SideEffects : Type := {
  MessagesToSend : list Message;
  TransactionsToSubmit : list ChainTransaction;
}.
End Protocols.

(** protocols.Objective, the interface. *)
Class Objectives (T : Types) : Type := {
  Objective : Type;
  Id : Objective -> ObjectiveId;
  Approve : Objective -> Objective;
  Reject : Objective -> Objective;
  Update : Objective -> ObjectiveEvent -> Objective;
  Crank : Objective -> SecretKey ->
          Objective * SideEffects * WaitingFor * option error;
}.

(** store.Store, the interface, over the state [store] of the object
    behind it; a method that writes returns the state afterwards. *)
Class Store (T : Types) (O : Objectives T) : Type := {
  store : Type;
  GetObjectiveById : store -> ObjectiveId -> Objective;
  GetObjectiveByChannelId : store -> Destination -> Objective;
  GetChannelSecretKey : store -> SecretKey;
  SetObjective : store -> Objective -> store * option error;
  UpdateProgressLastMadeAt : store -> ObjectiveId -> WaitingFor -> store;
}.

Section Engine.
Context {T : Types} {O : Objectives T} {St : Store T O}.

(** A call that the engine makes on one of its services and that
    writes: to the store, to the messaging service, to the chain. *)
Inductive Call : Type :=
| StoreSetObjective (o : Objective) (err : option error)
| StoreUpdateProgressLastMadeAt (id : ObjectiveId) (waitingFor : WaitingFor)
| MsgSend (message : Message)
| ChainSubmit (tx : ChainTransaction).

(** Engine is the imperative part of the core business logic of a
    go-nitro Client: the store it holds, and the calls it has made on
    its services so far, oldest first. *)
Record Engine : Type := {
  Engine_store : store;
  calls : list Call;
}.

(** APIEvent is an internal representation of an API call *)
Record APIEvent : Type := {
  ObjectiveToSpawn : option Objective;     (* nil is [None] *)
  ObjectiveToReject : ObjectiveId;
  ObjectiveToApprove : ObjectiveId;
}.

(** The objectives handed to [SetObjective] in a sequence of calls, in
    order. *)
Definition persisted (cs : list Call) : list Objective :=
  flat_map (fun c => match c with StoreSetObjective o _ => [o] | _ => [] end) cs.

(** [e.store.SetObjective(o)], its error returned to the caller. *)
Definition store_SetObjective (e : Engine) (o : Objective)
  : Engine * option error :=
  let '(st, err) := SetObjective (Engine_store e) o in
  ({| Engine_store := st; calls := calls e ++ [StoreSetObjective o err] |},
   err).

Definition store_UpdateProgressLastMadeAt (e : Engine) (id : ObjectiveId)
    (waitingFor : WaitingFor) : Engine :=
  {| Engine_store := UpdateProgressLastMadeAt (Engine_store e) id waitingFor;
     calls := calls e ++ [StoreUpdateProgressLastMadeAt id waitingFor] |}.

Definition msg_Send (e : Engine) (message : Message) : Engine :=
  {| Engine_store := Engine_store e;
     calls := calls e ++ [MsgSend message] |}.

Definition chain_Submit (e : Engine) (tx : ChainTransaction) : Engine :=
  {| Engine_store := Engine_store e;
     calls := calls e ++ [ChainSubmit tx] |}.

(** executeSideEffects executes the SideEffects declared by cranking an
    Objective *)
Definition executeSideEffects (e : Engine) (sideEffects : SideEffects)
  : Engine :=
  let e := fold_left msg_Send (MessagesToSend sideEffects) e in
  fold_left chain_Submit (TransactionsToSubmit sideEffects) e.

(** handleMessage handles a Message from a peer go-nitro Wallet. *)
Definition handleMessage (e : Engine) (message : Message) : Engine :=
  let objective :=
    GetObjectiveById (Engine_store e) (Message_ObjectiveId message) in
  let event :=
    {| ObjectiveEvent_Sigs := Message_Sigs message;
       ObjectiveEvent_Holdings := zeroFunds;
       ObjectiveEvent_AdjudicationStatus := zeroAdjudicationStatus |} in
  let secretKey := GetChannelSecretKey (Engine_store e) in
  let '(updatedProtocol, sideEffects, waitingFor, _) :=
    Crank (Update objective event) secretKey in
  let '(e, _) := store_SetObjective e updatedProtocol in
  let e := executeSideEffects e sideEffects in
  store_UpdateProgressLastMadeAt e (Message_ObjectiveId message) waitingFor.

(** handleChainEvent handles a Chain Event from the blockchain. *)
Definition handleChainEvent (e : Engine) (chainEvent : Event) : Engine :=
  let objective :=
    GetObjectiveByChannelId (Engine_store e) (Event_ChannelId chainEvent) in
  let event :=
    {| ObjectiveEvent_Sigs := zeroSigs;
       ObjectiveEvent_Holdings := Event_Holdings chainEvent;
       ObjectiveEvent_AdjudicationStatus :=
         Event_AdjudicationStatus chainEvent |} in
  let secretKey := GetChannelSecretKey (Engine_store e) in
  let '(updatedProtocol, sideEffects, waitingFor, _) :=
    Crank (Update objective event) secretKey in
  let '(e, _) := store_SetObjective e updatedProtocol in
  let e := executeSideEffects e sideEffects in
  store_UpdateProgressLastMadeAt e (Id objective) waitingFor.

(** handleAPIEvent handles an API Event (triggered by an API call) *)
Definition handleAPIEvent (e : Engine) (apiEvent : APIEvent) : Engine :=
  let e :=
    match ObjectiveToSpawn apiEvent with
    | Some o => fst (store_SetObjective e o)
    | None => e
    end in
  let e :=
    if bool_decide (ObjectiveToReject apiEvent <> []) then
      let objective :=
        GetObjectiveById (Engine_store e) (ObjectiveToReject apiEvent) in
      let updatedProtocol := Reject objective in
      fst (store_SetObjective e updatedProtocol)
    else e in
  if bool_decide (ObjectiveToApprove apiEvent <> []) then
    let objective :=
      GetObjectiveById (Engine_store e) (ObjectiveToReject apiEvent) in
    let updatedProtocol := Approve objective in
    fst (store_SetObjective e updatedProtocol)
  else e.

End Engine.

End engine.

(** ** The store's record of progress *)

Module specstore.
Import engine.

Section ProgressStore.
Context {T : Types} {O : Objectives T} (base : Store T O).

(** The state of a store that keeps, next to what the underlying
    store [base] keeps, the waiting-for value last reported for each
    objective, the time at which it last changed, and a clock. *)
Record progressStore : Type := {
  underlying : @store T O base;
  lastWaitingFor : gmap ObjectiveId WaitingFor;
  progressLastMadeAt : gmap ObjectiveId N;
  now : N;
}.

(** Modelled from the spec: package store (the implementation of
    store.Store, and with it UpdateProgressLastMadeAt) is missing from
    the sources. The spec gives the store an entry
    [progress-last-made-at(id)] that is set to the timestamp each time
    Crank produces progress, that is, when waiting-for changed; the
    objectives, the channels and the key are left to [base]. *)
Definition progress_UpdateProgressLastMadeAt (st : progressStore)
    (id : ObjectiveId) (waitingFor : WaitingFor) : progressStore :=
  if decide (lastWaitingFor st !! id = Some waitingFor) then st
  else
    {| underlying := underlying st;
       lastWaitingFor := <[id := waitingFor]> (lastWaitingFor st);
       progressLastMadeAt := <[id := now st]> (progressLastMadeAt st);
       now := now st |}.

Definition progress_SetObjective (st : progressStore) (o : Objective)
  : progressStore * option error :=
  let '(b, err) := SetObjective (underlying st) o in
  ({| underlying := b;
      lastWaitingFor := lastWaitingFor st;
      progressLastMadeAt := progressLastMadeAt st;
      now := now st |}, err).

#[export] Instance ProgressStore : Store T O := {|
  store := progressStore;
  GetObjectiveById st id := GetObjectiveById (underlying st) id;
  GetObjectiveByChannelId st c := GetObjectiveByChannelId (underlying st) c;
  GetChannelSecretKey st := GetChannelSecretKey (underlying st);
  SetObjective := progress_SetObjective;
  UpdateProgressLastMadeAt := progress_UpdateProgressLastMadeAt;
|}.
End ProgressStore.

Arguments underlying {T O base} _.
Arguments lastWaitingFor {T O base} _.
Arguments progressLastMadeAt {T O base} _.
Arguments now {T O base} _.

End specstore.

(** ** Instances on which the statements are exercised *)

Module sample.
Import engine.

(** Stand-ins for the primitives of go-ethereum: a signature carries the
    padded key, from which recovery reads the public key back. *)
Definition pad (n : nat) (b : bytes) : bytes :=
  take n (b ++ replicate n Byte.x00).

#[export] Instance primitives : crypto.Primitives := {|
  crypto.PublicKey := bytes;
  crypto.Keccak256 m := pad 32 m;
  crypto.secp256k1_Sign digest key := Ok (pad 64 key ++ [Byte.x01]);
  crypto.secp256k1_RecoverPubkey digest sig := Ok (take 64 sig);
  crypto.UnmarshalPubkey pub := Ok pub;
  crypto.PubkeyToAddress pub := take 20 pub;
  crypto.PublicKeyOf key := pad 64 key;
  crypto.FromECDSAPub pub := pub;
|}.

#[export] Instance types : Types := {|
  Sigs := list bytes;
  Funds := N;
  AdjudicationStatus := N;
  Destination := bytes;
  SecretKey := bytes;
  ChainTransaction := N;
  WaitingFor := bytes;
  zeroSigs := [];
  zeroFunds := 0;
  zeroAdjudicationStatus := 0;
|}.

(** An objective that collects signatures and, when cranked, sends one
    message and submits one transaction. *)
Record objective : Type := {
  oid : ObjectiveId;
  approved : bool;
  rejected : bool;
  sigs : list bytes;
  holdings : N;
}.

Definition blank (id : ObjectiveId) : objective :=
  {| oid := id; approved := false; rejected := false; sigs := [];
     holdings := 0 |}.

#[export] Instance objectives : Objectives types := {|
  Objective := objective;
  Id := oid;
  Approve o :=
    {| oid := oid o; approved := true; rejected := rejected o;
       sigs := sigs o; holdings := holdings o |};
  Reject o :=
    {| oid := oid o; approved := approved o; rejected := true;
       sigs := sigs o; holdings := holdings o |};
  Update o ev :=
    {| oid := oid o; approved := approved o; rejected := rejected o;
       sigs := sigs o ++ ObjectiveEvent_Sigs ev;
       holdings := N.max (holdings o) (ObjectiveEvent_Holdings ev) |};
  Crank o key :=
    (o,
     {| MessagesToSend :=
          [{| Message_ObjectiveId := oid o; Message_Sigs := [key] |}];
        TransactionsToSubmit := [holdings o] |},
     str "WaitingForNothing", None);
|}.

(** A store in memory whose writes can be made to fail. *)
Record memory : Type := {
  table : gmap ObjectiveId objective;
  key : bytes;
  failWrites : bool;
}.

#[export] Instance memoryStore : Store types objectives := {|
  store := memory;
  GetObjectiveById st id := default (blank id) (table st !! id);
  GetObjectiveByChannelId st c := default (blank c) (table st !! c);
  GetChannelSecretKey st := key st;
  SetObjective st o :=
    if failWrites st then (st, Some ErrStore)
    else ({| table := <[oid o := o]> (table st); key := key st;
             failWrites := false |}, None);
  UpdateProgressLastMadeAt st id w := st;
|}.

(** A signature of 32 + 32 + 1 zero bytes. *)
Definition zeroBytes : crypto.Signature :=
  {| crypto.R := replicate 32 Byte.x00; crypto.S := replicate 32 Byte.x00;
     crypto.V := Byte.x00 |}.

Definition signed : crypto.Signature :=
  {| crypto.R := replicate 32 Byte.x11; crypto.S := replicate 32 Byte.x22;
     crypto.V := Byte.x1b |}.

Definition metadata : outcome.GuaranteeMetadata :=
  {| outcome.Left := replicate 19 Byte.x00 ++ [Byte.xaa];
     outcome.Right := replicate 20 Byte.xbb |}.

Definition bob : ObjectiveId := str "bob".

(** An engine over a store that holds the objective [bob] and rejects
    every write. *)
Definition failing : Engine :=
  {| Engine_store :=
       {| table := {[ bob := blank bob ]}; key := [Byte.x07];
          failWrites := true |};
     calls := [] |}.

(** The same store with writes that succeed. *)
Definition working : Engine :=
  {| Engine_store :=
       {| table := {[ bob := blank bob ]}; key := [Byte.x07];
          failWrites := false |};
     calls := [] |}.

Definition fromBob : Message :=
  {| Message_ObjectiveId := bob; Message_Sigs := [[Byte.x01]] |}.

Definition approveBob : APIEvent :=
  {| ObjectiveToSpawn := None; ObjectiveToReject := [];
     ObjectiveToApprove := bob |}.

(** A progress store over [memoryStore], at time 100, with nothing
    recorded yet. *)
Definition trackedStore : specstore.progressStore memoryStore :=
  {| specstore.underlying := Engine_store working;
     specstore.lastWaitingFor := ∅;
     specstore.progressLastMadeAt := ∅;
     specstore.now := 100 |}.

Definition tracked : @Engine types objectives (specstore.ProgressStore memoryStore) :=
  @Build_Engine types objectives (specstore.ProgressStore memoryStore)
    trackedStore [].

End sample.

(** ** package safesync *)

Module safesync.

Section Map.
Context {T : Type} (zero : T).

(** Map wraps sync.Map in order to provide type safety: the keys are
    strings and every value is a [T]. The map is a [gmap bytes T];
    [zero] is the zero value of [T].

    Load returns the value stored in the map for a key, or nil if no
    value is present. The ok result indicates whether value was found in
    the map. *)
Definition Load (o : gmap bytes T) (id : bytes) : T * bool :=
  match o !! id with
  | None => (zero, false)
  | Some data => (data, true)
  end.

(** Store sets the value for a key. *)
Definition Store (o : gmap bytes T) (key : bytes) (data : T) : gmap bytes T :=
  <[key := data]> o.

(** Delete deletes the value for a key. *)
Definition Delete (o : gmap bytes T) (key : bytes) : gmap bytes T :=
  delete key o.

End Map.

End safesync.

(** ** package rpc: the client *)

Module rpc.

(** What the client takes from package serde and the protocol packages:
    the request methods (strings, with the empty string as zero value), the
    response of a direct-fund objective with its id, and
    [json.Unmarshal] of a response's bytes into a
    [serde.JsonRpcResponse], read as its [Id] and its [Result]. *)
Class Serde : Type := {
  RequestMethod : Type;
  RequestMethod_eq_dec :: EqDecision RequestMethod;
  zeroRequestMethod : RequestMethod;
  DirectFundRequestMethod : RequestMethod;
  DirectDefundRequestMethod : RequestMethod;
  ObjectiveResponse : Type;
  ObjectiveResponse_Id : ObjectiveResponse -> engine.ObjectiveId;
  Unmarshal_DirectFundResponse : bytes -> result (N * ObjectiveResponse);
  Unmarshal_DirectDefundResponse : bytes -> result (N * engine.ObjectiveId);
}.

Section Client.
Context {Sd : Serde}.

(** A value sent on a [chan interface{}]. *)
Inductive value : Type :=
| ofObjectiveResponse (r : ObjectiveResponse)
| ofObjectiveId (id : engine.ObjectiveId).

(** A channel made by [make(chan interface{})] is known by a number;
    0 is the nil channel. *)
Abbreviation Chan := N.

(** What the client does to the world outside its two maps. *)
Inductive Effect : Type :=
| SendMessage (method : RequestMethod) (data : bytes)   (* rc.nts.SendMessage *)
| ChanSend (c : Chan) (v : value).                      (* c <- v *)

(** RpcClient is a client for making nitro rpc calls: its two maps, the
    effects so far, oldest first, and the number of the next channel
    that [make] returns. *)
Record RpcClient : Type := {
  responses : gmap bytes Chan;
  idsToMethods : gmap bytes RequestMethod;
  effects : list Effect;
  nextChan : Chan;
}.

(** The part of CreateLedger up to the wait for the response. The id of
    the objective request, the request id drawn by [rand.Uint64()] and
    the outcome of [json.Marshal(message)] are given; returned are the
    client afterwards and the channel on which the response is awaited. *)
Definition CreateLedger_request (rc : RpcClient)
    (objectiveId : engine.ObjectiveId) (requestId : N) (marshalled : result bytes)
  : result (RpcClient * Chan) :=
  let resRec := nextChan rc in
  let responses' := safesync.Store (responses rc) objectiveId resRec in
  let idsToMethods' :=
    safesync.Store (idsToMethods rc) (decimal requestId)
      DirectFundRequestMethod in
  match marshalled with
  | Err _ => Err Panic
  | Ok data =>
      Ok ({| responses := responses';
             idsToMethods := idsToMethods';
             effects := effects rc ++ [SendMessage DirectFundRequestMethod data];
             nextChan := nextChan rc + 1 |}, resRec)
  end.

(** The end of CreateLedger: [objRes.(directfund.ObjectiveResponse)]. *)
Definition CreateLedger_result (objRes : value) : result ObjectiveResponse :=
  match objRes with
  | ofObjectiveResponse r => Ok r
  | ofObjectiveId _ => Err Panic
  end.

(** CloseLedger, in the same two parts. *)
Definition CloseLedger_request (rc : RpcClient)
    (objectiveId : engine.ObjectiveId) (requestId : N) (marshalled : result bytes)
  : result (RpcClient * Chan) :=
  let resRec := nextChan rc in
  let responses' := safesync.Store (responses rc) objectiveId resRec in
  let idsToMethods' :=
    safesync.Store (idsToMethods rc) (decimal requestId)
      DirectDefundRequestMethod in
  match marshalled with
  | Err _ => Err Panic
  | Ok data =>
      Ok ({| responses := responses';
             idsToMethods := idsToMethods';
             effects := effects rc ++ [SendMessage DirectDefundRequestMethod data];
             nextChan := nextChan rc + 1 |}, resRec)
  end.

Definition CloseLedger_result (objRes : value) : result engine.ObjectiveId :=
  match objRes with
  | ofObjectiveId id => Ok id
  | ofObjectiveResponse _ => Err Panic
  end.

(** What both cases of the response handler do with a decoded response:
    look the channel up under the result's objective id and, if there
    is one, delete the key of the response id from [responses], send
    the result, and delete the key of the response id from
    [idsToMethods]. *)
Definition deliver (rs : RpcClient) (resultId : engine.ObjectiveId)
    (responseId : N) (result : value) : RpcClient :=
  let '(resRec, ok) := safesync.Load 0 (responses rs) resultId in
  if ok then
    {| responses := safesync.Delete (responses rs) (decimal responseId);
       idsToMethods := safesync.Delete (idsToMethods rs) (decimal responseId);
       effects := effects rs ++ [ChanSend resRec result];
       nextChan := nextChan rs |}
  else rs.

(** The response handler that registerHandlers registers. *)
Definition responseHandler (rs : RpcClient) (id : N) (data : bytes)
  : result RpcClient :=
  let '(method, reqFound) :=
    safesync.Load zeroRequestMethod (idsToMethods rs) (decimal id) in
  if negb reqFound then Err Panic
  else if decide (method = DirectFundRequestMethod) then
    match Unmarshal_DirectFundResponse data with
    | Err _ => Err Panic
    | Ok (responseId, result) =>
        Ok (deliver rs (ObjectiveResponse_Id result) responseId
              (ofObjectiveResponse result))
    end
  else if decide (method = DirectDefundRequestMethod) then
    match Unmarshal_DirectDefundResponse data with
    | Err _ => Err Panic
    | Ok (responseId, result) =>
        Ok (deliver rs result responseId (ofObjectiveId result))
    end
  else Ok rs.

End Client.

End rpc.

(** ** The script that starts the rpc servers *)

Module script.

Definition alice : bytes := str "alice".
Definition bob : bytes := str "bob".
Definition irene : bytes := str "irene".
Definition ivan : bytes := str "ivan".

Definition blue : bytes := str "[34m".
Definition green : bytes := str "[32m".
Definition yellow : bytes := str "[33m".
Definition cyan : bytes := str "[36m".

Definition participants : list bytes := [alice; bob; irene; ivan].

Definition participantColor : gmap bytes bytes :=
  {[ alice := blue; irene := green; ivan := cyan; bob := yellow ]}.

(** colorWriter is a writer that writes to the underlying writer with
    the given color; the underlying writer is known by its file
    descriptor. *)
Record colorWriter : Type := { writer : N; color : bytes }.

(** newColorWriter creates a writer that colors the output with the
    given color *)
Definition newColorWriter (c : bytes) (w : N) : colorWriter :=
  {| writer := w; color := c |}.

(** [(cw colorWriter) Write(p)], given what the underlying writer does
    with the bytes handed to it. *)
Definition Write (underlying : bytes -> result nat) (cw : colorWriter)
    (p : bytes) : nat * option error :=
  match underlying ([Byte.x1b] ++ color cw ++ p ++ Byte.x1b :: str "[0m") with
  | Err err => (0%nat, Some err)
  | Ok _ => (length p, None)
  end.

(** An [*exec.Cmd] as the script sets it up. *)
Record Cmd : Type := {
  Path : bytes;
  Args : list bytes;
  Stdout : colorWriter;
  Stderr : colorWriter;
}.

Section Main.
(** [exec.LookPath] (the empty string when the program is not found),
    [types.Address.String], [cmd.Start] and [chain.DeployContracts] are
    given. *)
Context (LookPath : bytes -> bytes)
        (AddressString : bytes -> bytes)
        (Start : Cmd -> option error)
        (DeployContracts : result (bytes * bytes * bytes)).

(** [exec.Command(name, arg...)] for a name without a path separator,
    with the two writers that setupRPCServer assigns afterwards: the
    name is the first of Args, and Path is the name resolved by
    LookPath, or the name itself when that fails. *)
Definition exec_Command (name : bytes) (arg : list bytes)
    (stdout stderr : colorWriter) : Cmd :=
  {| Path := match LookPath name with [] => name | lp => lp end;
     Args := name :: arg;
     Stdout := stdout;
     Stderr := stderr |}.

(** setupRPCServer starts up an RPC server for the given participant *)
Definition setupRPCServer (p c na vpa ca : bytes) : result Cmd :=
  let args := [str "run"; str "."; str "-naaddress"; AddressString na] in
  let args := args ++ [str "-vpaaddress"; AddressString vpa] in
  let args := args ++ [str "-caaddress"; AddressString ca] in
  let args :=
    args ++ [str "-config"; str "./scripts/test-configs/" ++ p ++ str ".toml"] in
  let cmd :=
    exec_Command (str "go") args (newColorWriter c 1) (newColorWriter c 2) in
  match Start cmd with
  | Some err => Err err
  | None => Ok cmd
  end.

(** What main does that can be seen from outside. *)
Inductive Step : Type :=
| Started (cmd : Cmd)
| StopCommands (cmds : list Cmd)
| Panicked (err : error)
| WaitedForKillSignal.

(** The loop of main over the participants left to start. *)
Fixpoint startServers (ps : list bytes) (na vpa ca : bytes)
    (running : list Cmd) : list Step :=
  match ps with
  | [] => [WaitedForKillSignal; StopCommands running]
  | p :: rest =>
      match setupRPCServer p (default [] (participantColor !! p)) na vpa ca with
      | Err err => [StopCommands running; Panicked err]
      | Ok client => Started client :: startServers rest na vpa ca (running ++ [client])
      end
  end.

Definition main : list Step :=
  let running := [] in
  match DeployContracts with
  | Err err => [StopCommands running; Panicked err]
  | Ok (naAddress, vpaAddress, caAddress) =>
      startServers participants naAddress vpaAddress caAddress running
  end.

End Main.

(** The commands started and the commands stopped in a run. *)
Definition started (steps : list Step) : list Cmd :=
  flat_map (fun s => match s with Started cmd => [cmd] | _ => [] end) steps.

Definition stopped (steps : list Step) : list Cmd :=
  flat_map (fun s => match s with StopCommands cmds => cmds | _ => [] end) steps.

End script.

(** ** package client_test: the helpers *)

Module helpers.

(** The String method of a non-nil big.Int. *)
Definition bigInt_String (z : Z) : bytes :=
  if (z <? 0)%Z then Byte.x2d :: decimal (Z.to_N (- z))
  else decimal (Z.to_N z).

Record BasicVoucherInfo : Type := {
  Amount : Z;
  ChannelId : bytes;     (* types.Destination, a [32]byte *)
}.

Section Id.
(** [types.Destination.String] is given. *)
Context (Destination_String : bytes -> bytes).

Definition id (b : BasicVoucherInfo) : bytes :=
  Destination_String (ChannelId b) ++ str "-" ++ bigInt_String (Amount b).

End Id.

(** The closure waitAndSendOn of waitTimeForCompletedObjectiveIds, run
    over the objective ids that the client's channel of completed
    objectives delivers until it is closed: the map afterwards, and
    whether the all-done signal was sent. *)
Fixpoint waitAndSendOn (ids : list bytes) (delivered : list bytes)
    (completed : gmap bytes bool) : gmap bytes bool * bool :=
  match delivered with
  | [] => (completed, false)
  | got :: rest =>
      (* Mark the objective as completed *)
      let completed := <[got := true]> completed in
      let isDone :=
        fold_left (fun isDone id => isDone && default false (completed !! id))
          ids true in
      if isDone then (completed, true)
      else waitAndSendOn ids rest completed
  end.

End helpers.

(** ** More instances on which the statements are exercised *)

Module sample_rpc.

(** A serde whose methods are the strings of the rpc interface and in
    which a response is one byte, its id, followed by the objective id
    of its result. *)
Definition unmarshal (data : bytes) : result (N * bytes) :=
  match data with
  | b :: rest => Ok (Byte.to_N b, rest)
  | [] => Err ErrJSON
  end.

#[export] Instance serde : rpc.Serde := {|
  rpc.RequestMethod := bytes;
  rpc.zeroRequestMethod := [];
  rpc.DirectFundRequestMethod := str "direct_fund";
  rpc.DirectDefundRequestMethod := str "direct_defund";
  rpc.ObjectiveResponse := bytes;
  rpc.ObjectiveResponse_Id r := r;
  rpc.Unmarshal_DirectFundResponse := unmarshal;
  rpc.Unmarshal_DirectDefundResponse := unmarshal;
|}.

(** The client as NewRpcClient makes it: both maps empty. *)
Definition fresh : rpc.RpcClient :=
  {| rpc.responses := ∅; rpc.idsToMethods := ∅; rpc.effects := [];
     rpc.nextChan := 1 |}.

Definition ledger : engine.ObjectiveId := str "DirectFunding-0x01".

(** The client after a first and after a second CreateLedger request for
    [ledger], with request ids 7 and 8. *)
Definition pending : rpc.RpcClient :=
  match rpc.CreateLedger_request fresh ledger 7 (Ok [Byte.x01]) with
  | Ok (rc, _) => rc
  | Err _ => fresh
  end.

Definition pendingTwice : rpc.RpcClient :=
  match rpc.CreateLedger_request pending ledger 8 (Ok [Byte.x02]) with
  | Ok (rc, _) => rc
  | Err _ => pending
  end.

(** The response to request 7. *)
Definition response : bytes := Byte.x07 :: ledger.

Definition answered : rpc.RpcClient :=
  match rpc.responseHandler pending 7 response with
  | Ok rc => rc
  | Err _ => pending
  end.

Definition answeredTwice : rpc.RpcClient :=
  match rpc.responseHandler pendingTwice 7 response with
  | Ok rc => rc
  | Err _ => pendingTwice
  end.



(** Primitives whose recovery returns the signature handed to it, so
    that the result of RecoverEthereumMessageSigner shows what reached
    RecoverPubkey. *)
#[export] Instance echo : crypto.Primitives := {|
  crypto.PublicKey := bytes;
  crypto.Keccak256 m := m;
  crypto.secp256k1_Sign digest key := Err (ErrLibrary 0);
  crypto.secp256k1_RecoverPubkey digest sig := Ok sig;
  crypto.UnmarshalPubkey pub := Ok pub;
  crypto.PubkeyToAddress pub := pub;
  crypto.PublicKeyOf key := key;
  crypto.FromECDSAPub pub := pub;
|}.

(** A signature with V 29. *)
Definition odd : crypto.Signature :=
  {| crypto.R := replicate 32 Byte.x11; crypto.S := replicate 32 Byte.x22;
     crypto.V := Byte.x1d |}.

Definition voucher : helpers.BasicVoucherInfo :=
  {| helpers.Amount := 5; helpers.ChannelId := replicate 32 Byte.xab |}.

End sample_rpc.

(** * Properties *)

Module hex_facts.
Import hexutil.

Lemma fromHexChar_hexdigit_hi (b : byte) :
  fromHexChar (hexdigit (Byte.to_N b / 16)) = Some (Byte.to_N b / 16).
Proof. destruct b; reflexivity. Qed.

Lemma fromHexChar_hexdigit_lo (b : byte) :
  fromHexChar (hexdigit (Byte.to_N b mod 16)) = Some (Byte.to_N b mod 16).
Proof. destruct b; reflexivity. Qed.

Lemma nibbles_byte (b : byte) :
  byte_of_N (Byte.to_N b / 16 * 16 + Byte.to_N b mod 16) = b.
Proof. destruct b; reflexivity. Qed.

Lemma hex_DecodeString_Encode (src : bytes) :
  hex_DecodeString (hex_Encode src) = Ok src.
Proof.
  induction src as [|v rest IH]; [reflexivity|].
  cbn [hex_Encode hex_DecodeString].
  rewrite fromHexChar_hexdigit_hi, fromHexChar_hexdigit_lo, IH.
  cbn [Go.bind]. by rewrite nibbles_byte.
Qed.

Lemma Decode_Encode (b : bytes) : Decode (Encode b) = Ok b.
Proof.
  unfold Decode, Encode. cbn. apply hex_DecodeString_Encode.
Qed.

End hex_facts.

Module json_facts.
Import hexutil json.


Lemma plain_not_quote (c : byte) :
  plain c -> bool_decide (c = quote) = false.
Proof. unfold plain. destruct c; vm_compute; congruence. Qed.

Lemma plain_not_backslash (c : byte) :
  plain c -> bool_decide (c = backslash) = false.
Proof. unfold plain. destruct c; vm_compute; congruence. Qed.

Lemma plain_not_control (c : byte) :
  plain c -> (Byte.to_N c <? 32) = false.
Proof. unfold plain. destruct c; vm_compute; congruence. Qed.

Lemma escape_plain (c : byte) : plain c -> escape c = [c].
Proof. unfold plain, escape. intros ->. reflexivity. Qed.

Lemma flat_map_escape_plain (s : bytes) :
  Forall plain s -> flat_map escape s = s.
Proof.
  induction 1 as [|c s Hc _ IH]; [reflexivity|].
  cbn [flat_map]. rewrite (escape_plain c Hc), IH. reflexivity.
Qed.

Lemma unquoteBody_plain (s : bytes) :
  Forall plain s ->
  forall (fuel : nat) (tl : bytes),
    (length s < fuel)%nat ->
    unquoteBody fuel (s ++ quote :: tl) = Some (s, tl).
Proof.
  induction 1 as [|c s Hc _ IH]; intros fuel tl Hfuel.
  - destruct fuel; [cbn in Hfuel; lia|]. reflexivity.
  - destruct fuel as [|fuel]; [cbn in Hfuel; lia|].
    cbn [app unquoteBody].
    rewrite (plain_not_quote c Hc), (plain_not_backslash c Hc),
      (plain_not_control c Hc).
    rewrite IH by (cbn in Hfuel; lia). reflexivity.
Qed.

Lemma Unmarshal_Marshal_plain (s : bytes) :
  Forall plain s -> Unmarshal_string (Marshal_string s) = Ok s.
Proof.
  intros Hs. unfold Unmarshal_string, Marshal_string.
  rewrite (flat_map_escape_plain s Hs).
  cbn [skipSpace]. change (isSpace quote) with false. cbv iota.
  rewrite bool_decide_eq_true_2 by reflexivity.
  rewrite (unquoteBody_plain s Hs) by (rewrite length_app; cbn; lia).
  reflexivity.
Qed.

Lemma hexdigit_plain_hi (b : byte) : plain (hexdigit (Byte.to_N b / 16)).
Proof. destruct b; reflexivity. Qed.

Lemma hexdigit_plain_lo (b : byte) : plain (hexdigit (Byte.to_N b mod 16)).
Proof. destruct b; reflexivity. Qed.

Lemma hex_Encode_plain (src : bytes) : Forall plain (hex_Encode src).
Proof.
  induction src as [|v rest IH]; cbn [hex_Encode]; [constructor|].
  repeat constructor; auto using hexdigit_plain_hi, hexdigit_plain_lo.
Qed.

Lemma Encode_plain (b : bytes) : Forall plain (Encode b).
Proof.
  unfold Encode. apply Forall_app. split; [|apply hex_Encode_plain].
  repeat constructor.
Qed.

(** A hex string survives the trip through its JSON form. *)
Lemma Unmarshal_Marshal_Encode (b : bytes) :
  Unmarshal_string (Marshal_string (Encode b)) = Ok (Encode b).
Proof. apply Unmarshal_Marshal_plain, Encode_plain. Qed.

End json_facts.

Module crypto_facts.
Import hexutil json crypto.

Lemma allZero_replicate (n : nat) : allZero (replicate n Byte.x00) = true.
Proof. induction n; [reflexivity|]. cbn. exact IHn. Qed.

Lemma allZero_false_Exists (s : bytes) :
  allZero s = false <-> Exists (fun v => v <> Byte.x00) s.
Proof.
  induction s as [|v rest IH]; cbn [allZero].
  - split; [discriminate|]. intros H. inversion H.
  - case_bool_decide as Hv.
    + split; [intros _; by left | reflexivity].
    + rewrite IH. split; [by right|].
      intros H. inversion H; subst; [contradiction | assumption].
Qed.

Lemma joinSignature_eq (s : Signature) :
  joinSignature s = R s ++ S s ++ [V s].
Proof. reflexivity. Qed.

Lemma length_joinSignature (s : Signature) :
  length (joinSignature s) = (length (R s) + length (S s) + 1)%nat.
Proof. rewrite joinSignature_eq, !length_app. cbn. lia. Qed.

(** Cutting [R || S || V] at 32 and 64 gives the three parts back. *)
Lemma split_joinSignature (s : Signature) :
  length (R s) = 32%nat -> length (S s) = 32%nat ->
  joinSignature s !! 64%nat = Some (V s) /\
  {| R := slice (joinSignature s) 0 32; S := slice (joinSignature s) 32 64;
     V := V s |} = s.
Proof.
  intros HR HS. rewrite joinSignature_eq. split.
  - rewrite lookup_app_r by lia. rewrite lookup_app_r by lia.
    rewrite HR, HS. reflexivity.
  - destruct s as [r s' v]. cbn [R S V] in *. unfold slice. f_equal.
    + cbn [drop]. apply take_app_length'. by rewrite HR.
    + rewrite (drop_app_length' r) by done.
      apply take_app_length'. by rewrite HS.
Qed.

(** What UnmarshalJSON does once the text has been read as a JSON
    string and the string as hex. *)
Lemma UnmarshalJSON_decoded (s : Signature) (b hex joined : bytes) :
  Unmarshal_string b = Ok hex -> Decode hex = Ok joined ->
  UnmarshalJSON s b =
    if allZero joined then (s, None)
    else if bool_decide (length joined <> 65%nat)
    then (s, Some (ErrSignatureLength (length joined)))
    else
      match joined !! 64%nat with
      | Some v =>
          ({| R := slice joined 0 32; S := slice joined 32 64; V := v |}, None)
      | None => (s, Some Panic)
      end.
Proof. intros Hj Hh. unfold UnmarshalJSON. rewrite Hj, Hh. reflexivity. Qed.

Lemma UnmarshalJSON_Marshal (s : Signature) (joined : bytes) :
  UnmarshalJSON s (Marshal_string (Encode joined)) =
    if allZero joined then (s, None)
    else if bool_decide (length joined <> 65%nat)
    then (s, Some (ErrSignatureLength (length joined)))
    else
      match joined !! 64%nat with
      | Some v =>
          ({| R := slice joined 0 32; S := slice joined 32 64; V := v |}, None)
      | None => (s, Some Panic)
      end.
Proof.
  apply (UnmarshalJSON_decoded s _ (Encode joined)).
  - apply json_facts.Unmarshal_Marshal_Encode.
  - apply hex_facts.Decode_Encode.
Qed.

(** C6: decoding the JSON text of the hex string of 65 zero bytes returns
    no error and leaves the receiver as it was; a receiver that is the
    zero Signature stays the zero (empty) Signature. *)
Theorem UnmarshalJSON_all_zero_65 :
  let text := Marshal_string (Encode (replicate 65 Byte.x00)) in
  text = quote :: str "0x" ++ replicate 130 Byte.x30 ++ [quote] /\
  (forall s : Signature, UnmarshalJSON s text = (s, None)) /\
  UnmarshalJSON zeroSignature text = (zeroSignature, None).
Proof.
  cbv zeta. split; [reflexivity|].
  assert (forall s : Signature,
    UnmarshalJSON s (Marshal_string (Encode (replicate 65 Byte.x00)))
    = (s, None)) as H.
  { intros s. rewrite UnmarshalJSON_Marshal.
    rewrite (allZero_replicate 65). reflexivity. }
  split; [exact H | apply H].
Qed.

(** C7, as the code has it: a signature with 32-byte R and S whose 65
    bytes are not all zero is read back from its JSON form into any
    receiver; for the all-zero signature decoding succeeds and the
    receiver stays as it was. *)
Theorem MarshalJSON_UnmarshalJSON (s recv : Signature) :
  length (R s) = 32%nat -> length (S s) = 32%nat ->
  exists j : bytes,
    MarshalJSON s = Ok j /\
    UnmarshalJSON recv j =
      (if allZero (joinSignature s) then recv else s, None).
Proof.
  intros HR HS. eexists. split; [reflexivity|].
  rewrite UnmarshalJSON_Marshal.
  destruct (allZero (joinSignature s)); [reflexivity|].
  rewrite bool_decide_eq_false_2
    by (rewrite length_joinSignature, HR, HS; intros H; apply H; reflexivity).
  destruct (split_joinSignature s HR HS) as [-> ->]. reflexivity.
Qed.

Lemma MarshalJSON_UnmarshalJSON_witness :
  exists j : bytes,
    MarshalJSON sample.signed = Ok j /\
    UnmarshalJSON zeroSignature j = (sample.signed, None).
Proof.
  exact (MarshalJSON_UnmarshalJSON sample.signed zeroSignature
           eq_refl eq_refl).
Defined.

(** C7 as stated fails: the signature of 65 zero bytes, marshalled and
    decoded into a fresh Signature, comes back as the empty signature,
    which is not Equal to it. *)
Lemma MarshalJSON_UnmarshalJSON_zero_bytes :
  MarshalJSON sample.zeroBytes
    = Ok (quote :: str "0x" ++ replicate 130 Byte.x30 ++ [quote]) /\
  UnmarshalJSON zeroSignature
    (quote :: str "0x" ++ replicate 130 Byte.x30 ++ [quote])
    = (zeroSignature, None) /\
  Equal zeroSignature sample.zeroBytes = false.
Proof. vm_compute. repeat split. Qed.

End crypto_facts.

Module unmarshal_facts.
Import hexutil json crypto crypto_facts.

(** C10: UnmarshalJSON returns an error exactly when the text is not read
    as a JSON string, or the string is not read as 0x-prefixed hex, or the
    decoded bytes have a non-zero byte and are not 65 long; zero bytes of
    any number are accepted with the receiver unchanged; and whenever an
    error is returned the receiver is unchanged. *)
Theorem UnmarshalJSON_error_iff (s : Signature) (b : bytes) :
  (snd (UnmarshalJSON s b) <> None <->
     (exists e, Unmarshal_string b = Err e) \/
     (exists hex e, Unmarshal_string b = Ok hex /\ Decode hex = Err e) \/
     (exists hex joined,
        Unmarshal_string b = Ok hex /\ Decode hex = Ok joined /\
        Exists (fun v => v <> Byte.x00) joined /\ length joined <> 65%nat)) /\
  (forall n : nat,
     UnmarshalJSON s (Marshal_string (Encode (replicate n Byte.x00)))
     = (s, None)) /\
  (snd (UnmarshalJSON s b) <> None -> fst (UnmarshalJSON s b) = s).
Proof.
  split; [|split].
  - destruct (Unmarshal_string b) as [hex|e] eqn:Hj.
    2:{ unfold UnmarshalJSON. rewrite Hj. cbn. split; [eauto|done]. }
    destruct (Decode hex) as [joined|e] eqn:Hh.
    2:{ unfold UnmarshalJSON. rewrite Hj, Hh. cbn. split; [|done].
        intros _. right. left. eauto. }
    rewrite (UnmarshalJSON_decoded s b hex joined Hj Hh).
    destruct (allZero joined) eqn:Hz.
    { cbn. split; [done|].
      intros [[e He]|[(h & e & Hh' & He)|(h & j & Hh' & Hj' & Hnz & _)]].
      - discriminate.
      - injection Hh' as <-. congruence.
      - injection Hh' as <-. rewrite Hh in Hj'. injection Hj' as <-.
        apply allZero_false_Exists in Hnz. congruence. }
    case_bool_decide as Hlen.
    { cbn. split; [|done]. intros _. right. right.
      exists hex, joined. by rewrite <- allZero_false_Exists. }
    destruct (joined !! 64%nat) as [v|] eqn:Hv.
    + cbn. split; [done|].
      intros [[e He]|[(h & e & Hh' & He)|(h & j & Hh' & Hj' & _ & Hne)]].
      * discriminate.
      * injection Hh' as <-. congruence.
      * injection Hh' as <-. rewrite Hh in Hj'. injection Hj' as <-.
        contradiction.
    + apply lookup_ge_None in Hv. lia.
  - intros n. rewrite UnmarshalJSON_Marshal, allZero_replicate. reflexivity.
  - unfold UnmarshalJSON.
    destruct (Unmarshal_string b) as [hex|e]; [|reflexivity].
    destruct (Decode hex) as [joined|e]; [|reflexivity].
    destruct (allZero joined); [reflexivity|].
    case_bool_decide; [reflexivity|].
    destruct (joined !! 64%nat); [|reflexivity]. cbn. done.
Qed.

End unmarshal_facts.

Module sign_facts.
Import crypto.

Lemma byte_sub_add_27 (v : byte) :
  (Byte.to_N v <? 27) = true ->
  (27 <=? Byte.to_N (byte_add v Byte.x1b)) = true /\
  byte_sub (byte_add v Byte.x1b) Byte.x1b = v.
Proof. destruct v; vm_compute; intros H; first [discriminate H | done]. Qed.

(** A 65-byte signature is the concatenation of its three parts. *)
Lemma join_slices (c : bytes) (v : byte) :
  length c = 65%nat -> c !! 64%nat = Some v ->
  slice c 0 32 ++ slice c 32 64 ++ [v] = c.
Proof.
  intros Hlen Hv. unfold slice. cbn [drop].
  change (32 - 0)%nat with 32%nat. change (64 - 32)%nat with 32%nat.
  rewrite <- (take_drop 32 c) at 3. f_equal.
  rewrite <- (take_drop 32 (drop 32 c)) at 2. f_equal.
  rewrite drop_drop. change (32 + 32)%nat with 64%nat.
  rewrite (drop_S c v 64 Hv). rewrite drop_ge by lia. reflexivity.
Qed.

Lemma SplitSignature_65 (c : bytes) :
  length c = 65%nat ->
  exists v, c !! 64%nat = Some v /\
    SplitSignature c
    = Ok {| R := slice c 0 32; S := slice c 32 64; V := v |}.
Proof.
  intros Hlen. destruct (lookup_lt_is_Some_2 c 64) as [v Hv]; [lia|].
  exists v. split; [exact Hv|]. unfold SplitSignature. by rewrite Hv.
Qed.

Lemma sample_primitives_laws : PrimitivesLaws sample.primitives.
Proof.
  assert (forall k, length (sample.pad 64 k) = 64%nat) as Hpad.
  { intros k. unfold sample.pad.
    rewrite length_take, length_app, length_replicate. lia. }
  split.
  - intros digest key sig [= <-]. rewrite length_app, Hpad. split; [done|].
    right. rewrite lookup_app_r by (rewrite Hpad; lia).
    rewrite Hpad. reflexivity.
  - intros digest key sig [= <-]. cbn. f_equal.
    apply take_app_length'. by rewrite Hpad.
  - reflexivity.
Qed.

Section WithLaws.
Context {P : Primitives} (L : PrimitivesLaws P).

(** What signing returns: the library's 65 bytes cut in three, V raised
    by 27. *)
Lemma SignEthereumMessage_Ok (m k : bytes) (sig : Signature) :
  SignEthereumMessage m k = Ok sig ->
  exists (c : bytes) (v : byte),
    secp256k1_Sign (computeEthereumSignedMessageDigest m) k = Ok c /\
    length c = 65%nat /\ c !! 64%nat = Some v /\
    (v = Byte.x00 \/ v = Byte.x01) /\
    sig = {| R := slice c 0 32; S := slice c 32 64;
             V := byte_add v Byte.x1b |}.
Proof.
  unfold SignEthereumMessage. cbv zeta.
  destruct (secp256k1_Sign _ k) as [c|e] eqn:Hsign; [|discriminate].
  cbn [Go.bind].
  destruct (Sign_format P L _ _ _ Hsign) as [Hlen Hv].
  destruct (SplitSignature_65 c Hlen) as (v & Hv64 & ->).
  cbn [Go.bind V R S]. intros [= <-].
  exists c, v. split; [reflexivity|]. split; [exact Hlen|].
  split; [exact Hv64|].
  assert (v = Byte.x00 \/ v = Byte.x01) as Hv01
    by (destruct Hv as [Hv|Hv]; rewrite Hv in Hv64; injection Hv64; auto).
  split; [exact Hv01|].
  destruct Hv01 as [-> | ->]; reflexivity.
Qed.

(** C1: the address recovered from a signature that SignEthereumMessage
    returned for a message and a secret key is the address of the key's
    public key. *)
Theorem Recover_Sign_address (m k : bytes) (sig : Signature) :
  SignEthereumMessage m k = Ok sig ->
  RecoverEthereumMessageSigner m sig
  = Ok (PubkeyToAddress (PublicKeyOf k)).
Proof.
  intros Hsig.
  destruct (SignEthereumMessage_Ok m k sig Hsig)
    as (c & v & Hsign & Hlen & Hv & Hv01 & ->).
  assert ((Byte.to_N v <? 27) = true) as Hlt
    by (destruct Hv01 as [-> | ->]; reflexivity).
  destruct (byte_sub_add_27 v Hlt) as [Hge Hback].
  unfold RecoverEthereumMessageSigner, recoveryForm. cbn [V R S].
  rewrite Hge. cbv zeta. unfold joinSignature. cbn [V R S app].
  rewrite Hback, (join_slices c v Hlen Hv).
  rewrite (Recover_Sign P L _ _ _ Hsign). cbn [Go.bind].
  rewrite (Unmarshal_FromECDSAPub P L). reflexivity.
Qed.

(** C5, as the code has it: a signature that SignEthereumMessage returns
    has V 27 or 28; RecoverEthereumMessageSigner hands every signature
    to public-key recovery with V lowered by 27 when V is at least 27
    and with V as it is otherwise, so that V 27 or 28 reaches recovery
    as 0 or 1. *)
Theorem V_normalised :
  (forall (m k : bytes) (sig : Signature),
     SignEthereumMessage m k = Ok sig ->
     V sig = Byte.x1b \/ V sig = Byte.x1c) /\
  (forall (m : bytes) (sig : Signature),
     RecoverEthereumMessageSigner m sig =
       (do pubKey <- secp256k1_RecoverPubkey
                       (computeEthereumSignedMessageDigest m)
                       (R sig ++ S sig
                          ++ [if 27 <=? Byte.to_N (V sig)
                              then byte_sub (V sig) Byte.x1b else V sig]);
        do ecdsaPubKey <- UnmarshalPubkey pubKey;
        Ok (PubkeyToAddress ecdsaPubKey))) /\
  (forall v : byte,
     (v = Byte.x1b ->
      (if 27 <=? Byte.to_N v then byte_sub v Byte.x1b else v) = Byte.x00) /\
     (v = Byte.x1c ->
      (if 27 <=? Byte.to_N v then byte_sub v Byte.x1b else v) = Byte.x01)).
Proof.
  split; [|split].
  - intros m k sig Hsig.
    destruct (SignEthereumMessage_Ok m k sig Hsig)
      as (c & v & _ & _ & _ & [-> | ->] & ->); cbn [V]; auto.
  - intros m [r s v]. unfold RecoverEthereumMessageSigner, recoveryForm.
    cbn [V R S]. destruct (27 <=? Byte.to_N v); reflexivity.
  - intros v. split; intros ->; reflexivity.
Qed.

End WithLaws.

Lemma Recover_Sign_address_witness :
  @RecoverEthereumMessageSigner sample.primitives (str "hello")
    {| R := sample.pad 32 [Byte.x01]; S := sample.pad 32 []; V := Byte.x1c |}
  = Ok (sample.pad 20 [Byte.x01]).
Proof.
  exact (Recover_Sign_address sample_primitives_laws (str "hello")
           [Byte.x01] _ eq_refl).
Defined.

Lemma V_normalised_witness :
  V {| R := sample.pad 32 [Byte.x02]; S := sample.pad 32 []; V := Byte.x1c |}
    = Byte.x1b \/
  V {| R := sample.pad 32 [Byte.x02]; S := sample.pad 32 []; V := Byte.x1c |}
    = Byte.x1c.
Proof.
  exact (proj1 (V_normalised sample_primitives_laws) (str "hi")
           [Byte.x02] _ eq_refl).
Defined.

(** C5 as stated fails: a signature with V 29 reaches public-key
    recovery with V 2, which is neither 0 nor 1. *)
Lemma Recover_V_29 :
  @RecoverEthereumMessageSigner sample_rpc.echo (str "hello") sample_rpc.odd
  = Ok (R sample_rpc.odd ++ S sample_rpc.odd ++ [Byte.x02]) /\
  V (recoveryForm sample_rpc.odd) = Byte.x02 /\
  Byte.x02 <> Byte.x00 /\ Byte.x02 <> Byte.x01.
Proof. repeat split; discriminate. Qed.

End sign_facts.

Module outcome_facts.
Import hexutil json outcome.

Lemma LeftPadBytes_address (a : bytes) :
  length a = crypto.AddressLength ->
  LeftPadBytes a 32 = replicate 12 Byte.x00 ++ a.
Proof.
  intros Ha. unfold LeftPadBytes. rewrite Ha.
  rewrite bool_decide_eq_false_2 by (unfold crypto.AddressLength; lia).
  reflexivity.
Qed.

Lemma BytesToAddress_padded (a : bytes) :
  length a = crypto.AddressLength ->
  BytesToAddress (replicate 12 Byte.x00 ++ a) = a.
Proof.
  intros Ha. unfold BytesToAddress.
  rewrite length_app, length_replicate, Ha.
  rewrite bool_decide_eq_true_2 by (unfold crypto.AddressLength; lia).
  change (12 + crypto.AddressLength - crypto.AddressLength)%nat with 12%nat.
  rewrite (drop_app_length' (replicate 12 Byte.x00)) by reflexivity.
  rewrite Ha. reflexivity.
Qed.

Lemma toGoType_address_first (l r : bytes) :
  length l = 32%nat -> length r = 32%nat ->
  toGoType_address 0 (l ++ r) = Ok (BytesToAddress l).
Proof.
  intros Hl Hr. unfold toGoType_address, slice.
  rewrite bool_decide_eq_false_2 by (rewrite length_app; lia).
  rewrite drop_0. replace (0 + 32 - 0)%nat with 32%nat by lia.
  by rewrite (take_app_length' l r 32).
Qed.

Lemma toGoType_address_second (l r : bytes) :
  length l = 32%nat -> length r = 32%nat ->
  toGoType_address 32 (l ++ r) = Ok (BytesToAddress r).
Proof.
  intros Hl Hr. unfold toGoType_address, slice.
  rewrite bool_decide_eq_false_2 by (rewrite length_app; lia).
  replace (32 + 32 - 32)%nat with 32%nat by lia.
  rewrite (drop_app_length' l r 32) by done.
  by rewrite take_ge by lia.
Qed.

Lemma Unpack_Encode (m : GuaranteeMetadata) :
  length (Left m) = crypto.AddressLength ->
  length (Right m) = crypto.AddressLength ->
  Unpack (LeftPadBytes (Left m) 32 ++ LeftPadBytes (Right m) 32)
  = Ok {| rawLeft := Left m; rawRight := Right m |}.
Proof.
  intros HL HR.
  rewrite (LeftPadBytes_address _ HL), (LeftPadBytes_address _ HR).
  set (l := replicate 12 Byte.x00 ++ Left m).
  set (r := replicate 12 Byte.x00 ++ Right m).
  assert (length l = 32%nat) as Hl
    by (unfold l; rewrite length_app, length_replicate, HL; reflexivity).
  assert (length r = 32%nat) as Hr
    by (unfold r; rewrite length_app, length_replicate, HR; reflexivity).
  unfold Unpack.
  rewrite !bool_decide_eq_false_2 by (rewrite length_app; lia).
  rewrite (toGoType_address_first l r Hl Hr),
    (toGoType_address_second l r Hl Hr).
  cbn [Go.bind]. unfold l, r.
  rewrite (BytesToAddress_padded _ HL), (BytesToAddress_padded _ HR).
  reflexivity.
Qed.

Lemma expect_app (lit s : bytes) : expect lit (lit ++ s) = Some s.
Proof.
  unfold expect. rewrite take_app_length, drop_app_length.
  by rewrite bool_decide_eq_true_2.
Qed.

Lemma scanPlainString_plain (s tl : bytes) :
  Forall plain s -> scanPlainString (s ++ quote :: tl) = Some (s, tl).
Proof.
  induction 1 as [|c s Hc _ IH]; cbn [app scanPlainString].
  - by rewrite bool_decide_eq_true_2.
  - rewrite (json_facts.plain_not_quote c Hc),
      (json_facts.plain_not_backslash c Hc),
      (json_facts.plain_not_control c Hc), IH.
    reflexivity.
Qed.

Lemma UnmarshalFixedText_Encode (a : bytes) :
  UnmarshalFixedText (hexutil.Encode a) (length a) = Some a.
Proof.
  unfold UnmarshalFixedText, hexutil.Encode.
  change (str "0x" ++ hex_Encode a) with (Byte.x30 :: Byte.x78 :: hex_Encode a).
  change (has0xPrefix (Byte.x30 :: Byte.x78 :: hex_Encode a)) with true.
  cbv iota. rewrite !skipn_cons, drop_0.
  rewrite hex_facts.hex_DecodeString_Encode.
  by rewrite bool_decide_eq_true_2.
Qed.

Lemma addressMember_Marshal (name : string) (a tl : bytes) :
  length a = crypto.AddressLength ->
  addressMember name
    (Marshal_string (str name) ++ str ":" ++ Marshal_string (hexutil.Encode a) ++ tl)
  = Some (a, tl).
Proof.
  intros Ha. unfold addressMember.
  replace (Marshal_string (str name) ++ str ":"
             ++ Marshal_string (hexutil.Encode a) ++ tl)
    with ((Marshal_string (str name) ++ str ":" ++ [quote])
            ++ hexutil.Encode a ++ quote :: tl).
  2:{ unfold Marshal_string at 3.
      rewrite (json_facts.flat_map_escape_plain _ (json_facts.Encode_plain a)).
      rewrite <- !app_assoc. cbn [app]. f_equal. f_equal.
      rewrite <- app_assoc. reflexivity. }
  rewrite expect_app. cbn [mbind option_bind].
  rewrite (scanPlainString_plain _ _ (json_facts.Encode_plain a)).
  cbn [mbind option_bind]. rewrite <- Ha, UnmarshalFixedText_Encode.
  reflexivity.
Qed.

Lemma convertToGuaranteeMetadata_id (r : rawGuaranteeMetadataType) :
  length (rawLeft r) = crypto.AddressLength ->
  length (rawRight r) = crypto.AddressLength ->
  convertToGuaranteeMetadata r
  = Ok {| Left := rawLeft r; Right := rawRight r |}.
Proof.
  intros HL HR. unfold convertToGuaranteeMetadata, Unmarshal_GuaranteeMetadata,
    Marshal_raw. cbv zeta.
  rewrite expect_app. cbn [mbind option_bind].
  rewrite (addressMember_Marshal "Left" _ _ HL). cbn [mbind option_bind].
  rewrite expect_app. cbn [mbind option_bind].
  rewrite (addressMember_Marshal "Right" _ _ HR). cbn [mbind option_bind].
  reflexivity.
Qed.

(** C8: a GuaranteeMetadata of two 20-byte addresses, encoded and decoded,
    comes back unchanged. *)
Theorem DecodeIntoGuaranteeMetadata_Encode (m : GuaranteeMetadata) :
  length (Left m) = crypto.AddressLength ->
  length (Right m) = crypto.AddressLength ->
  exists b : bytes,
    Encode m = Ok b /\ DecodeIntoGuaranteeMetadata b = Ok m.
Proof.
  intros HL HR. eexists. split; [reflexivity|].
  unfold DecodeIntoGuaranteeMetadata.
  rewrite (Unpack_Encode m HL HR). cbn [Go.bind].
  rewrite convertToGuaranteeMetadata_id by assumption.
  destruct m; reflexivity.
Qed.

Lemma DecodeIntoGuaranteeMetadata_Encode_witness :
  exists b : bytes,
    Encode sample.metadata = Ok b /\
    DecodeIntoGuaranteeMetadata b = Ok sample.metadata.
Proof.
  exact (DecodeIntoGuaranteeMetadata_Encode sample.metadata eq_refl eq_refl).
Defined.

End outcome_facts.

Module engine_facts.
Import engine.

Section Handlers.
Context {T : Types} {O : Objectives T} {St : Store T O}.

Lemma fold_msg_Send (ms : list Message) (e : Engine) :
  fold_left msg_Send ms e
  = {| Engine_store := Engine_store e;
       calls := calls e ++ map MsgSend ms |}.
Proof.
  revert e. induction ms as [|m ms IH]; intros e; cbn [fold_left map].
  - rewrite app_nil_r. by destruct e.
  - rewrite IH. cbn [msg_Send Engine_store calls].
    by rewrite <- app_assoc.
Qed.

Lemma fold_chain_Submit (txs : list ChainTransaction) (e : Engine) :
  fold_left chain_Submit txs e
  = {| Engine_store := Engine_store e;
       calls := calls e ++ map ChainSubmit txs |}.
Proof.
  revert e. induction txs as [|tx txs IH]; intros e; cbn [fold_left map].
  - rewrite app_nil_r. by destruct e.
  - rewrite IH. cbn [chain_Submit Engine_store calls].
    by rewrite <- app_assoc.
Qed.

(** The calls that dispatch the side effects: the messages, then the
    transactions. *)
Lemma executeSideEffects_calls (e : Engine) (se : SideEffects) :
  executeSideEffects e se
  = {| Engine_store := Engine_store e;
       calls := calls e ++ map MsgSend (MessagesToSend se)
                  ++ map ChainSubmit (TransactionsToSubmit se) |}.
Proof.
  unfold executeSideEffects. rewrite fold_chain_Submit, fold_msg_Send.
  cbn [Engine_store calls]. by rewrite <- app_assoc.
Qed.

(** What a handler does with the objective it loaded, the event it built
    and the id it reports progress under. *)
Lemma crank_and_store (e : Engine) (objective : Objective)
    (event : ObjectiveEvent) (id : ObjectiveId) :
  (let '(updatedProtocol, sideEffects, waitingFor, _) :=
     Crank (Update objective event) (GetChannelSecretKey (Engine_store e)) in
   let '(e, _) := store_SetObjective e updatedProtocol in
   let e := executeSideEffects e sideEffects in
   store_UpdateProgressLastMadeAt e id waitingFor)
  =
  let '(updatedProtocol, sideEffects, waitingFor, _) :=
    Crank (Update objective event) (GetChannelSecretKey (Engine_store e)) in
  {| Engine_store :=
       UpdateProgressLastMadeAt
         (fst (SetObjective (Engine_store e) updatedProtocol)) id waitingFor;
     calls :=
       calls e
       ++ [StoreSetObjective updatedProtocol
             (snd (SetObjective (Engine_store e) updatedProtocol))]
       ++ map MsgSend (MessagesToSend sideEffects)
       ++ map ChainSubmit (TransactionsToSubmit sideEffects)
       ++ [StoreUpdateProgressLastMadeAt id waitingFor] |}.
Proof.
  destruct (Crank _ _) as [[[updated se] w] err].
  unfold store_SetObjective.
  destruct (SetObjective (Engine_store e) updated) as [st werr].
  rewrite executeSideEffects_calls.
  unfold store_UpdateProgressLastMadeAt. cbn [Engine_store calls fst snd].
  f_equal. by rewrite <- !app_assoc.
Qed.

(** Rewrite a handler into the calls it makes and name what Crank
    returned. *)
Ltac crank_cases :=
  cbv zeta; rewrite crank_and_store;
  destruct (Crank _ _) as [[[updated se] w] err].

Lemma persisted_app (cs1 cs2 : list Call) :
  persisted (cs1 ++ cs2) = persisted cs1 ++ persisted cs2.
Proof. unfold persisted. apply flat_map_app. Qed.

Lemma persisted_MsgSend (ms : list Message) :
  persisted (map MsgSend ms) = [].
Proof. induction ms; [reflexivity | assumption]. Qed.

Lemma persisted_ChainSubmit (txs : list ChainTransaction) :
  persisted (map ChainSubmit txs) = [].
Proof. induction txs; [reflexivity | assumption]. Qed.

(** C2, as the code has it: for a message and for a chain event, the
    engine calls SetObjective with the updated objective, then sends the
    messages and submits the transactions that Crank returned, then
    reports progress; the error of SetObjective is recorded in the call
    and changes nothing of what follows. *)
Theorem SetObjective_before_side_effects (e : Engine)
    (message : Message) (chainEvent : Event) :
  (let objective :=
     GetObjectiveById (Engine_store e) (Message_ObjectiveId message) in
   let event :=
     {| ObjectiveEvent_Sigs := Message_Sigs message;
        ObjectiveEvent_Holdings := zeroFunds;
        ObjectiveEvent_AdjudicationStatus := zeroAdjudicationStatus |} in
   let '(updatedProtocol, sideEffects, waitingFor, _) :=
     Crank (Update objective event) (GetChannelSecretKey (Engine_store e)) in
   calls (handleMessage e message)
   = calls e
     ++ [StoreSetObjective updatedProtocol
           (snd (SetObjective (Engine_store e) updatedProtocol))]
     ++ map MsgSend (MessagesToSend sideEffects)
     ++ map ChainSubmit (TransactionsToSubmit sideEffects)
     ++ [StoreUpdateProgressLastMadeAt (Message_ObjectiveId message)
           waitingFor])
  /\
  (let objective :=
     GetObjectiveByChannelId (Engine_store e) (Event_ChannelId chainEvent) in
   let event :=
     {| ObjectiveEvent_Sigs := zeroSigs;
        ObjectiveEvent_Holdings := Event_Holdings chainEvent;
        ObjectiveEvent_AdjudicationStatus :=
          Event_AdjudicationStatus chainEvent |} in
   let '(updatedProtocol, sideEffects, waitingFor, _) :=
     Crank (Update objective event) (GetChannelSecretKey (Engine_store e)) in
   calls (handleChainEvent e chainEvent)
   = calls e
     ++ [StoreSetObjective updatedProtocol
           (snd (SetObjective (Engine_store e) updatedProtocol))]
     ++ map MsgSend (MessagesToSend sideEffects)
     ++ map ChainSubmit (TransactionsToSubmit sideEffects)
     ++ [StoreUpdateProgressLastMadeAt (Id objective) waitingFor]).
Proof.
  split; cbv zeta.
  - unfold handleMessage. crank_cases. reflexivity.
  - unfold handleChainEvent. crank_cases. reflexivity.
Qed.

(** C3: handleMessage loads the objective under the message's objective
    id, handleChainEvent the one that GetObjectiveByChannelId returns for
    the event's channel id; the one objective either hands to
    SetObjective is the objective that Crank, given the secret key,
    returns for Update of the loaded objective with the event, and the
    store afterwards is the store after that write and the progress
    report. *)
Theorem handlers_persist_cranked_update (e : Engine)
    (message : Message) (chainEvent : Event) :
  (let objective :=
     GetObjectiveById (Engine_store e) (Message_ObjectiveId message) in
   let event :=
     {| ObjectiveEvent_Sigs := Message_Sigs message;
        ObjectiveEvent_Holdings := zeroFunds;
        ObjectiveEvent_AdjudicationStatus := zeroAdjudicationStatus |} in
   let '(updatedProtocol, _, waitingFor, _) :=
     Crank (Update objective event) (GetChannelSecretKey (Engine_store e)) in
   persisted (calls (handleMessage e message))
   = persisted (calls e) ++ [updatedProtocol] /\
   Engine_store (handleMessage e message)
   = UpdateProgressLastMadeAt
       (fst (SetObjective (Engine_store e) updatedProtocol))
       (Message_ObjectiveId message) waitingFor)
  /\
  (let objective :=
     GetObjectiveByChannelId (Engine_store e) (Event_ChannelId chainEvent) in
   let event :=
     {| ObjectiveEvent_Sigs := zeroSigs;
        ObjectiveEvent_Holdings := Event_Holdings chainEvent;
        ObjectiveEvent_AdjudicationStatus :=
          Event_AdjudicationStatus chainEvent |} in
   let '(updatedProtocol, _, waitingFor, _) :=
     Crank (Update objective event) (GetChannelSecretKey (Engine_store e)) in
   persisted (calls (handleChainEvent e chainEvent))
   = persisted (calls e) ++ [updatedProtocol] /\
   Engine_store (handleChainEvent e chainEvent)
   = UpdateProgressLastMadeAt
       (fst (SetObjective (Engine_store e) updatedProtocol))
       (Id objective) waitingFor).
Proof.
  split; cbv zeta.
  - unfold handleMessage. crank_cases. cbn [calls Engine_store].
    split; [|reflexivity].
    rewrite !persisted_app, persisted_MsgSend, persisted_ChainSubmit.
    reflexivity.
  - unfold handleChainEvent. crank_cases. cbn [calls Engine_store].
    split; [|reflexivity].
    rewrite !persisted_app, persisted_MsgSend, persisted_ChainSubmit.
    reflexivity.
Qed.

End Handlers.

(** C2 as stated fails: over a store whose write fails, handleMessage
    still sends the message and submits the transaction that Crank
    returned. *)
Lemma handleMessage_dispatches_after_failed_write :
  calls (handleMessage sample.failing sample.fromBob)
  = [ @StoreSetObjective sample.types sample.objectives
        {| sample.oid := sample.bob; sample.approved := false;
           sample.rejected := false; sample.sigs := [[Byte.x01]];
           sample.holdings := 0 |}
        (Some ErrStore);
      @MsgSend sample.types sample.objectives
        (@Build_Message sample.types sample.bob [[Byte.x07]]);
      @ChainSubmit sample.types sample.objectives 0%N;
      @StoreUpdateProgressLastMadeAt sample.types sample.objectives
        sample.bob (str "WaitingForNothing") ].
Proof. reflexivity. Qed.

(** C4 at an API event that approves [bob] and rejects nothing: the
    objective loaded and approved is the one under the empty id of
    ObjectiveToReject; [bob] stays as it was, not approved. *)
Lemma handleAPIEvent_approves_ObjectiveToReject :
  calls (handleAPIEvent sample.working sample.approveBob)
  = [ @StoreSetObjective sample.types sample.objectives
        {| sample.oid := []; sample.approved := true;
           sample.rejected := false; sample.sigs := [];
           sample.holdings := 0 |}
        None ] /\
  sample.table (Engine_store (handleAPIEvent sample.working sample.approveBob))
    !! sample.bob = Some (sample.blank sample.bob) /\
  sample.approved (sample.blank sample.bob) = false.
Proof. vm_compute. repeat split. Qed.

End engine_facts.

Module progress_facts.
Import engine specstore.

Section OverBase.
Context {T : Types} {O : Objectives T} (base : Store T O).



End OverBase.

(** The first message for [bob] records the time; the same waiting-for
    value reported again, at a later time, leaves the entry alone. *)
Example progress_recorded_once :
  let e1 := handleMessage sample.tracked sample.fromBob in
  let later :=
    @Build_Engine sample.types sample.objectives
      (ProgressStore sample.memoryStore)
      {| underlying := underlying (Engine_store e1);
         lastWaitingFor := lastWaitingFor (Engine_store e1);
         progressLastMadeAt := progressLastMadeAt (Engine_store e1);
         now := 200 |}
      (calls e1) in
  progressLastMadeAt (Engine_store e1) !! sample.bob = Some 100 /\
  progressLastMadeAt (Engine_store (handleMessage later sample.fromBob))
    !! sample.bob = Some 100.
Proof. vm_compute. split; reflexivity. Qed.

End progress_facts.

Module signature_facts.
Import hexutil json crypto.

Lemma length_slices (c : bytes) :
  (65 <= length c)%nat ->
  length (slice c 0 32) = 32%nat /\ length (slice c 32 64) = 32%nat.
Proof.
  intros Hc. unfold slice. rewrite !length_take, !length_drop. lia.
Qed.

(** X1: cutting and joining are inverse on well-formed values: a
    signature with 32-byte R and S is what SplitSignature returns for
    its joined form, and 65 bytes are the joined form of what
    SplitSignature returns for them. *)
Theorem SplitSignature_joinSignature :
  (forall s : Signature,
     length (R s) = 32%nat -> length (S s) = 32%nat ->
     SplitSignature (joinSignature s) = Ok s) /\
  (forall c : bytes,
     length c = 65%nat ->
     exists s : Signature,
       SplitSignature c = Ok s /\ joinSignature s = c /\
       length (R s) = 32%nat /\ length (S s) = 32%nat).
Proof.
  split.
  - intros s HR HS.
    destruct (crypto_facts.split_joinSignature s HR HS) as [Hv Hs].
    unfold SplitSignature. rewrite Hv. by rewrite Hs.
  - intros c Hc.
    destruct (sign_facts.SplitSignature_65 c Hc) as (v & Hv & Hsplit).
    eexists. split; [exact Hsplit|]. split.
    + rewrite crypto_facts.joinSignature_eq. cbn [R S V].
      by apply sign_facts.join_slices.
    + cbn [R S]. apply length_slices. lia.
Qed.

(** X2: SplitSignature panics exactly on fewer than 65 bytes, and reads
    nothing beyond the 65th byte. *)
Theorem SplitSignature_bounds (c extra : bytes) :
  (SplitSignature c = Err Panic <-> (length c < 65)%nat) /\
  ((65 <= length c)%nat ->
   SplitSignature (c ++ extra) = SplitSignature c).
Proof.
  split.
  - unfold SplitSignature. destruct (c !! 64%nat) as [v|] eqn:Hv.
    + apply lookup_lt_Some in Hv. split; [discriminate | lia].
    + apply lookup_ge_None in Hv. split; [lia | reflexivity].
  - intros Hc. unfold SplitSignature, slice.
    rewrite lookup_app_l by lia.
    destruct (c !! 64%nat) as [v|]; [|reflexivity].
    rewrite !drop_app_le by lia. rewrite !take_app_le; [reflexivity| |].
    + rewrite length_drop. lia.
    + rewrite length_drop. lia.
Qed.

Lemma SplitSignature_bounds_witness :
  SplitSignature (replicate 65 Byte.x01 ++ [Byte.x02])
  = SplitSignature (replicate 65 Byte.x01).
Proof.
  apply (proj2 (SplitSignature_bounds (replicate 65 Byte.x01) [Byte.x02])).
  cbn. lia.
Defined.

Lemma byte_add_27_ge (v : byte) :
  (Byte.to_N v <? 27) = true -> 27 <= Byte.to_N (byte_add v Byte.x1b).
Proof. destruct v; vm_compute; intros H; first [discriminate H | discriminate]. Qed.

Section AnyPrimitives.
Context {P : Primitives}.

(** X3: whatever the signing library returns, a signature that
    SignEthereumMessage returns has V at least 27 and R and S of 32
    bytes each. *)
Theorem SignEthereumMessage_shape (m k : bytes) (sig : Signature) :
  SignEthereumMessage m k = Ok sig ->
  27 <= Byte.to_N (V sig) /\
  length (R sig) = 32%nat /\ length (S sig) = 32%nat.
Proof.
  unfold SignEthereumMessage. cbv zeta.
  destruct (secp256k1_Sign _ k) as [c|e]; [|discriminate]. cbn [Go.bind].
  unfold SplitSignature. destruct (c !! 64%nat) as [v|] eqn:Hv; [|discriminate].
  cbn [Go.bind V R S]. apply lookup_lt_Some in Hv.
  destruct (length_slices c) as [HR HS]; [lia|].
  destruct (Byte.to_N v <? 27) eqn:Hlt; intros [= <-]; cbn [V R S].
  - split; [by apply byte_add_27_ge | by split].
  - apply N.ltb_ge in Hlt. by split.
Qed.

(** X4: recovery takes V in either form: a signature with V below 27
    and the same signature with V raised by 27 recover to the same
    result. *)
Theorem Recover_either_V_form (m r s : bytes) (v : byte) :
  Byte.to_N v < 27 ->
  RecoverEthereumMessageSigner m {| R := r; S := s; V := byte_add v Byte.x1b |}
  = RecoverEthereumMessageSigner m {| R := r; S := s; V := v |}.
Proof.
  intros Hv. apply N.ltb_lt in Hv.
  destruct (sign_facts.byte_sub_add_27 v Hv) as [Hge Hback].
  unfold RecoverEthereumMessageSigner, recoveryForm. cbn [V R S].
  rewrite Hge, Hback.
  replace (27 <=? Byte.to_N v) with false; [reflexivity|].
  symmetry. apply N.leb_gt. by apply N.ltb_lt.
Qed.

End AnyPrimitives.

Lemma SignEthereumMessage_shape_witness :
  27 <= Byte.to_N Byte.x1c /\
  length (sample.pad 32 [Byte.x01]) = 32%nat /\
  length (sample.pad 32 []) = 32%nat.
Proof.
  exact (@SignEthereumMessage_shape sample.primitives (str "hello")
           [Byte.x01] _ eq_refl).
Defined.

Lemma Recover_either_V_form_witness :
  @RecoverEthereumMessageSigner sample.primitives (str "hello")
    {| R := sample.pad 32 [Byte.x01]; S := sample.pad 32 []; V := Byte.x1c |}
  = @RecoverEthereumMessageSigner sample.primitives (str "hello")
    {| R := sample.pad 32 [Byte.x01]; S := sample.pad 32 []; V := Byte.x01 |}.
Proof.
  apply (@Recover_either_V_form sample.primitives (str "hello")
           (sample.pad 32 [Byte.x01]) (sample.pad 32 []) Byte.x01).
  reflexivity.
Defined.

Lemma hex_Encode_inj (a b : bytes) : hex_Encode a = hex_Encode b -> a = b.
Proof.
  intros H.
  assert (hex_DecodeString (hex_Encode a) = hex_DecodeString (hex_Encode b))
    as Hd by (by rewrite H).
  rewrite !hex_facts.hex_DecodeString_Encode in Hd. by injection Hd.
Qed.

(** X5: Equal holds exactly for equal signatures, and for signatures
    with 32-byte R and S exactly when their hex strings are the same. *)
Theorem Equal_iff (s1 s2 : Signature) :
  (Equal s1 s2 = true <-> s1 = s2) /\
  (length (R s1) = 32%nat -> length (R s2) = 32%nat ->
   (Equal s1 s2 = true <-> ToHexString s1 = ToHexString s2)).
Proof.
  assert (Equal s1 s2 = true <-> s1 = s2) as Heq.
  { unfold Equal. rewrite !andb_true_iff, !bool_decide_eq_true.
    destruct s1, s2; cbn [R S V]. split; [intros [[-> ->] ->] | intros [= -> -> ->]]; done. }
  split; [exact Heq|]. intros H1 H2. rewrite Heq. split; [by intros ->|].
  unfold ToHexString, Encode. intros H. apply app_inv_head in H.
  apply hex_Encode_inj in H. rewrite !crypto_facts.joinSignature_eq in H.
  destruct s1 as [r1 s1 v1], s2 as [r2 s2 v2]. cbn [R S V] in *.
  apply app_inj_1 in H as [-> H]; [|congruence].
  apply app_inj_2 in H as [-> [= ->]]; done.
Qed.

Lemma Equal_iff_witness :
  Equal sample.signed sample.signed = true
  <-> ToHexString sample.signed = ToHexString sample.signed.
Proof.
  exact (proj2 (Equal_iff sample.signed sample.signed) eq_refl eq_refl).
Defined.

(** X6: when UnmarshalJSON returns no error, the receiver is either as
    it was, the decoded bytes being all zero, or a signature with
    32-byte R and S whose joined form is the decoded bytes, not all
    zero. *)
Theorem UnmarshalJSON_success (s s' : Signature) (b : bytes) :
  UnmarshalJSON s b = (s', None) ->
  exists hex joined : bytes,
    Unmarshal_string b = Ok hex /\ Decode hex = Ok joined /\
    (allZero joined = true /\ s' = s \/
     allZero joined = false /\ joinSignature s' = joined /\
     length (R s') = 32%nat /\ length (S s') = 32%nat).
Proof.
  unfold UnmarshalJSON.
  destruct (Unmarshal_string b) as [hex|e] eqn:Hj; [|discriminate].
  destruct (Decode hex) as [joined|e] eqn:Hh; [|discriminate].
  intros H. exists hex, joined. split; [reflexivity|]. split; [exact Hh|].
  destruct (allZero joined).
  { left. by injection H as <-. }
  right. split; [reflexivity|].
  case_bool_decide as Hlen; [discriminate|].
  destruct (joined !! 64%nat) as [v|] eqn:Hv; [|discriminate].
  injection H as <-. cbn [R S V]. split.
  - rewrite crypto_facts.joinSignature_eq. cbn [R S V].
    by apply sign_facts.join_slices.
  - apply length_slices. lia.
Qed.

Lemma UnmarshalJSON_success_witness :
  exists hex joined : bytes,
    Unmarshal_string (Marshal_string (ToHexString sample.signed)) = Ok hex /\
    Decode hex = Ok joined /\
    (allZero joined = true /\ sample.signed = zeroSignature \/
     allZero joined = false /\ joinSignature sample.signed = joined /\
     length (R sample.signed) = 32%nat /\ length (S sample.signed) = 32%nat).
Proof.
  exact (UnmarshalJSON_success zeroSignature sample.signed
           (Marshal_string (ToHexString sample.signed)) eq_refl).
Defined.

(** X7: bytes that are not all zero and not 65 long are refused with
    the error that reports their number, the receiver unchanged. *)
Theorem UnmarshalJSON_wrong_length (s : Signature) (joined : bytes) :
  allZero joined = false -> length joined <> 65%nat ->
  UnmarshalJSON s (Marshal_string (Encode joined))
  = (s, Some (ErrSignatureLength (length joined))).
Proof.
  intros Hz Hlen. rewrite crypto_facts.UnmarshalJSON_Marshal, Hz.
  by rewrite bool_decide_eq_true_2.
Qed.

Lemma UnmarshalJSON_wrong_length_witness :
  UnmarshalJSON zeroSignature (Marshal_string (Encode [Byte.x01; Byte.x02]))
  = (zeroSignature, Some (ErrSignatureLength 2)).
Proof.
  apply (UnmarshalJSON_wrong_length zeroSignature [Byte.x01; Byte.x02]).
  - reflexivity.
  - cbn. lia.
Defined.

End signature_facts.

Module guarantee_facts.
Import hexutil json outcome.

Lemma BytesToAddress_word (w : bytes) :
  length w = 32%nat ->
  BytesToAddress w = drop 12 w /\ length (drop 12 w) = crypto.AddressLength.
Proof.
  intros Hw. unfold BytesToAddress. rewrite Hw.
  rewrite bool_decide_eq_true_2 by (unfold crypto.AddressLength; lia).
  change (32 - crypto.AddressLength)%nat with 12%nat.
  rewrite length_drop, Hw. split; reflexivity.
Qed.

Lemma slice_length (b : bytes) (i j : nat) :
  (i <= j)%nat -> (j <= length b)%nat -> length (slice b i j) = (j - i)%nat.
Proof. intros Hij Hj. unfold slice. rewrite length_take, length_drop. lia. Qed.

Lemma drop_slice (b : bytes) (i j k : nat) :
  (k <= j - i)%nat -> drop k (slice b i j) = slice b (i + k) j.
Proof.
  intros Hk. unfold slice.
  rewrite skipn_firstn_comm, drop_drop. f_equal. lia.
Qed.

(** X8: decoding fails exactly on fewer than 64 bytes: on no bytes
    with abi's empty-input error, otherwise with the length error that
    names the first word that does not fit. *)
Theorem DecodeIntoGuaranteeMetadata_short (b : bytes) :
  (length b < 64)%nat ->
  DecodeIntoGuaranteeMetadata b =
    if bool_decide (length b = 0%nat) then Err ErrAbiEmpty
    else if bool_decide (length b < 32)%nat
         then Err (ErrAbiLength (length b) 32)
         else Err (ErrAbiLength (length b) 64).
Proof.
  intros Hb. unfold DecodeIntoGuaranteeMetadata, Unpack.
  case_bool_decide; [reflexivity|].
  case_bool_decide; [reflexivity|].
  unfold toGoType_address.
  rewrite (bool_decide_eq_false_2 (length b < 0 + 32)%nat) by lia.
  cbn [Go.bind].
  rewrite (bool_decide_eq_true_2 (length b < 32 + 32)%nat) by lia.
  reflexivity.
Qed.

Lemma DecodeIntoGuaranteeMetadata_short_witness :
  DecodeIntoGuaranteeMetadata (replicate 40 Byte.x01)
  = Err (ErrAbiLength 40 64).
Proof.
  apply (DecodeIntoGuaranteeMetadata_short (replicate 40 Byte.x01)).
  cbn. lia.
Defined.

(** X9: on 64 bytes or more decoding succeeds and reads bytes 12 to 31
    as Left and bytes 44 to 63 as Right: the twelve bytes in front of
    each address and everything after byte 63 are ignored. *)
Theorem DecodeIntoGuaranteeMetadata_long (b : bytes) :
  (64 <= length b)%nat ->
  DecodeIntoGuaranteeMetadata b
  = Ok {| Left := slice b 12 32; Right := slice b 44 64 |}.
Proof.
  intros Hb. unfold DecodeIntoGuaranteeMetadata, Unpack.
  rewrite !bool_decide_eq_false_2 by lia.
  unfold toGoType_address.
  rewrite !bool_decide_eq_false_2 by lia. cbn [Go.bind Nat.add].
  destruct (BytesToAddress_word (slice b 0 32)) as [-> HL];
    [by apply slice_length; lia|].
  destruct (BytesToAddress_word (slice b 32 64)) as [-> HR];
    [by apply slice_length; lia|].
  rewrite outcome_facts.convertToGuaranteeMetadata_id by assumption.
  cbn [rawLeft rawRight]. rewrite !drop_slice by lia. reflexivity.
Qed.

Lemma DecodeIntoGuaranteeMetadata_long_witness :
  DecodeIntoGuaranteeMetadata (replicate 70 Byte.xff)
  = Ok {| Left := replicate 20 Byte.xff; Right := replicate 20 Byte.xff |}.
Proof.
  apply (DecodeIntoGuaranteeMetadata_long (replicate 70 Byte.xff)).
  cbn. lia.
Defined.

(** X10: Encode writes 64 bytes for 20-byte addresses, and two
    metadata values with the same encoding are the same. *)
Theorem Encode_length_inj (m1 m2 : GuaranteeMetadata) (b : bytes) :
  length (Left m1) = crypto.AddressLength ->
  length (Right m1) = crypto.AddressLength ->
  length (Left m2) = crypto.AddressLength ->
  length (Right m2) = crypto.AddressLength ->
  Encode m1 = Ok b ->
  length b = 64%nat /\ (Encode m2 = Ok b -> m1 = m2).
Proof.
  intros HL1 HR1 HL2 HR2 H1. split.
  - unfold Encode in H1. injection H1 as <-.
    rewrite !outcome_facts.LeftPadBytes_address by assumption.
    rewrite !length_app, !length_replicate, HL1, HR1. reflexivity.
  - intros H2. unfold Encode in H1, H2. rewrite <- H2 in H1.
    injection H1 as H1.
    rewrite !outcome_facts.LeftPadBytes_address in H1 by assumption.
    apply app_inj_1 in H1 as [HL HR];
      [|by rewrite !length_app, !length_replicate, HL1, HL2].
    apply app_inv_head in HL. apply app_inv_head in HR.
    destruct m1, m2; cbn in *. congruence.
Qed.

Lemma Encode_length_inj_witness :
  length (replicate 12 Byte.x00 ++ Left sample.metadata
            ++ replicate 12 Byte.x00 ++ Right sample.metadata) = 64%nat /\
  (Encode sample.metadata
   = Ok (replicate 12 Byte.x00 ++ Left sample.metadata
           ++ replicate 12 Byte.x00 ++ Right sample.metadata) ->
   sample.metadata = sample.metadata).
Proof.
  exact (Encode_length_inj sample.metadata sample.metadata _
           eq_refl eq_refl eq_refl eq_refl eq_refl).
Defined.

End guarantee_facts.

Module api_facts.
Import engine.

Section Handlers.
Context {T : Types} {O : Objectives T} {St : Store T O}.

(** X11: executeSideEffects leaves the store alone and makes one call
    per side effect: every message in order, then every transaction in
    order. *)
Theorem executeSideEffects_order (e : Engine) (sideEffects : SideEffects) :
  Engine_store (executeSideEffects e sideEffects) = Engine_store e /\
  calls (executeSideEffects e sideEffects)
  = calls e ++ map MsgSend (MessagesToSend sideEffects)
      ++ map ChainSubmit (TransactionsToSubmit sideEffects).
Proof. rewrite engine_facts.executeSideEffects_calls. by split. Qed.

Lemma store_SetObjective_calls (e : Engine) (o : Objective) :
  calls (fst (store_SetObjective e o))
  = calls e ++ [StoreSetObjective o (snd (SetObjective (Engine_store e) o))] /\
  Engine_store (fst (store_SetObjective e o))
  = fst (SetObjective (Engine_store e) o).
Proof.
  unfold store_SetObjective.
  destruct (SetObjective (Engine_store e) o) as [st err]. by split.
Qed.

(** X12: handleAPIEvent only writes objectives: the calls it adds are at
    most three, each a SetObjective; it sends no message, submits no
    transaction and reports no progress. An event with nothing to
    spawn, reject or approve leaves the engine as it was. *)
Theorem handleAPIEvent_only_writes (e : Engine) (apiEvent : APIEvent) :
  (exists added : list Call,
     calls (handleAPIEvent e apiEvent) = calls e ++ added /\
     (length added <= 3)%nat /\
     Forall (fun c => exists o err, c = StoreSetObjective o err) added) /\
  (ObjectiveToSpawn apiEvent = None ->
   ObjectiveToReject apiEvent = [] -> ObjectiveToApprove apiEvent = [] ->
   handleAPIEvent e apiEvent = e).
Proof.
  pose (isWrite := fun c : Call => exists o err, c = StoreSetObjective o err).
  split.
  - fold isWrite. unfold handleAPIEvent. cbv zeta.
    set (e1 := match ObjectiveToSpawn apiEvent with
               | Some o => fst (store_SetObjective e o)
               | None => e
               end).
    assert (exists a1, calls e1 = calls e ++ a1 /\ (length a1 <= 1)%nat
                       /\ Forall isWrite a1) as (a1 & H1 & L1 & F1).
    { unfold e1. destruct (ObjectiveToSpawn apiEvent) as [o|].
      - destruct (store_SetObjective_calls e o) as [-> _].
        eexists. split; [reflexivity|]. split; [cbn; lia|].
        repeat constructor. by eexists _, _.
      - exists []. rewrite app_nil_r.
        split; [reflexivity|]. split; [cbn; lia | constructor]. }
    set (e2 := if bool_decide (ObjectiveToReject apiEvent <> [])
               then fst (store_SetObjective e1 _) else e1).
    assert (exists a2, calls e2 = calls e1 ++ a2 /\ (length a2 <= 1)%nat
                       /\ Forall isWrite a2) as (a2 & H2 & L2 & F2).
    { unfold e2. case_bool_decide.
      - destruct (store_SetObjective_calls e1
                    (Reject (GetObjectiveById (Engine_store e1)
                               (ObjectiveToReject apiEvent)))) as [-> _].
        eexists. split; [reflexivity|]. split; [cbn; lia|].
        repeat constructor. by eexists _, _.
      - exists []. rewrite app_nil_r.
        split; [reflexivity|]. split; [cbn; lia | constructor]. }
    case_bool_decide.
    + destruct (store_SetObjective_calls e2
                  (Approve (GetObjectiveById (Engine_store e2)
                              (ObjectiveToReject apiEvent)))) as [-> _].
      eexists (a1 ++ a2 ++ [_]).
      rewrite H2, H1, <- !app_assoc. split; [reflexivity|].
      rewrite !length_app. split; [cbn; lia|].
      rewrite !Forall_app. repeat split; try assumption.
      repeat constructor. by eexists _, _.
    + exists (a1 ++ a2). rewrite H2, H1, <- !app_assoc.
      split; [reflexivity|]. rewrite length_app. split; [lia|].
      by apply Forall_app.
  - intros Hs Hr Ha. unfold handleAPIEvent. rewrite Hs, Hr, Ha. reflexivity.
Qed.

(** X13: an event that names an objective to reject and any objective
    to approve writes the rejected objective and then, the store
    returning under the rejected id what was just written, that same
    objective approved: the approval lands on the rejected objective. *)
Theorem handleAPIEvent_reject_then_approve (e : Engine) (apiEvent : APIEvent) :
  ObjectiveToSpawn apiEvent = None ->
  ObjectiveToReject apiEvent <> [] ->
  ObjectiveToApprove apiEvent <> [] ->
  let rejected :=
    Reject (GetObjectiveById (Engine_store e) (ObjectiveToReject apiEvent)) in
  GetObjectiveById (fst (SetObjective (Engine_store e) rejected))
    (ObjectiveToReject apiEvent) = rejected ->
  persisted (calls (handleAPIEvent e apiEvent))
  = persisted (calls e) ++ [rejected; Approve rejected].
Proof.
  intros Hs Hr Ha rejected Hget. unfold handleAPIEvent. rewrite Hs. cbv zeta.
  rewrite !bool_decide_eq_true_2 by assumption.
  fold rejected.
  destruct (store_SetObjective_calls e rejected) as [Hc1 Hs1].
  destruct (store_SetObjective_calls (fst (store_SetObjective e rejected))
              (Approve (GetObjectiveById
                          (Engine_store (fst (store_SetObjective e rejected)))
                          (ObjectiveToReject apiEvent)))) as [-> _].
  rewrite Hc1, Hs1, Hget, !engine_facts.persisted_app, <- app_assoc.
  reflexivity.
Qed.

End Handlers.

Lemma handleAPIEvent_reject_then_approve_witness :
  persisted
    (calls (handleAPIEvent sample.working
              (@Build_APIEvent sample.types sample.objectives None
                 sample.bob sample.bob)))
  = [ @Reject sample.types sample.objectives (sample.blank sample.bob);
      @Approve sample.types sample.objectives
        (@Reject sample.types sample.objectives (sample.blank sample.bob)) ].
Proof.
  refine (@handleAPIEvent_reject_then_approve sample.types sample.objectives
            sample.memoryStore sample.working
            (@Build_APIEvent sample.types sample.objectives None
               sample.bob sample.bob) eq_refl _ _ eq_refl);
    discriminate.
Defined.

End api_facts.

Module safesync_facts.
Import safesync.

(** X14: a Load returns what the last Store under its key stored, with
    ok true, and the zero value with ok false when the key was never
    stored or was deleted since; Store and Delete under one key leave
    the Load of every other key as it was. *)
Theorem Load_Store_Delete {T : Type} (zero : T) (o : gmap bytes T)
    (key other : bytes) (data : T) :
  Load zero (Store o key data) key = (data, true) /\
  Load zero (Delete o key) key = (zero, false) /\
  Load zero (Delete (Store o key data) key) key = (zero, false) /\
  Load zero (∅ : gmap bytes T) key = (zero, false) /\
  (key <> other ->
   Load zero (Store o key data) other = Load zero o other /\
   Load zero (Delete o key) other = Load zero o other).
Proof.
  unfold Load, Store, Delete. repeat split.
  - by rewrite lookup_insert_eq.
  - by rewrite lookup_delete_eq.
  - by rewrite lookup_delete_eq.
  - by rewrite lookup_insert_ne.
  - by rewrite lookup_delete_ne.
Qed.

End safesync_facts.

Module rpc_facts.
Import rpc.

Section Client.
Context {Sd : Serde}.

Lemma Load_Some {T : Type} (zero : T) (o : gmap bytes T) (k : bytes) (v : T) :
  o !! k = Some v -> safesync.Load zero o k = (v, true).
Proof. unfold safesync.Load. by intros ->. Qed.

Lemma Load_None {T : Type} (zero : T) (o : gmap bytes T) (k : bytes) :
  o !! k = None -> safesync.Load zero o k = (zero, false).
Proof. unfold safesync.Load. by intros ->. Qed.

(** X15: the handler panics on a response whose id is under no pending
    request, and on a response to a direct-fund request whose bytes do
    not unmarshal. *)
Theorem responseHandler_panics (rs : RpcClient) (id : N) (data : bytes) :
  (idsToMethods rs !! decimal id = None ->
   responseHandler rs id data = Err Panic) /\
  (idsToMethods rs !! decimal id = Some DirectFundRequestMethod ->
   (exists e, Unmarshal_DirectFundResponse data = Err e) ->
   responseHandler rs id data = Err Panic).
Proof.
  unfold responseHandler. split.
  - intros H. by rewrite (Load_None _ _ _ H).
  - intros H [e He]. rewrite (Load_Some _ _ _ _ H). cbn [negb].
    rewrite decide_True by reflexivity. by rewrite He.
Qed.


(** X17: request and response meet: after CreateLedger has registered
    a request, the handler, given the response with that request id
    whose result carries the objective id of the request, sends the
    result on the channel that CreateLedger waits on, which CreateLedger
    returns, and the request is pending no more. *)
Theorem CreateLedger_response (rc rc1 : RpcClient)
    (objectiveId : engine.ObjectiveId) (requestId : N) (request data : bytes)
    (resRec : N) (result : ObjectiveResponse) :
  CreateLedger_request rc objectiveId requestId (Ok request) = Ok (rc1, resRec) ->
  Unmarshal_DirectFundResponse data = Ok (requestId, result) ->
  ObjectiveResponse_Id result = objectiveId ->
  exists rc2 : RpcClient,
    responseHandler rc1 requestId data = Ok rc2 /\
    effects rc2
    = effects rc ++ [SendMessage DirectFundRequestMethod request;
                     ChanSend resRec (ofObjectiveResponse result)] /\
    idsToMethods rc2 !! decimal requestId = None /\
    CreateLedger_result (ofObjectiveResponse result) = Ok result.
Proof.
  unfold CreateLedger_request. cbv zeta. intros [= <- <-] Hd Hid.
  unfold responseHandler. cbn [idsToMethods].
  rewrite (Load_Some _ _ _ DirectFundRequestMethod)
    by (unfold safesync.Store; apply lookup_insert_eq).
  cbn [negb]. rewrite decide_True by reflexivity. rewrite Hd, Hid.
  eexists. split; [reflexivity|].
  unfold deliver. cbn [responses].
  rewrite (Load_Some _ _ _ (nextChan rc))
    by (unfold safesync.Store; apply lookup_insert_eq).
  cbn [effects idsToMethods]. split; [by rewrite <- app_assoc|].
  split; [|reflexivity]. unfold safesync.Delete. apply lookup_delete_eq.
Qed.

(** X18: the handler deletes from [responses] the key of the response
    id, not the key under which the channel was stored: after the
    response has been delivered the channel is still registered under
    the objective id, unless that id is the decimal form of the
    request id. *)
Theorem CreateLedger_response_channel_stays (rc rc1 rc2 : RpcClient)
    (objectiveId : engine.ObjectiveId) (requestId : N) (request data : bytes)
    (resRec : N) (result : ObjectiveResponse) :
  CreateLedger_request rc objectiveId requestId (Ok request) = Ok (rc1, resRec) ->
  Unmarshal_DirectFundResponse data = Ok (requestId, result) ->
  ObjectiveResponse_Id result = objectiveId ->
  responseHandler rc1 requestId data = Ok rc2 ->
  responses rc2 = delete (decimal requestId) (<[objectiveId := resRec]> (responses rc)) /\
  (objectiveId <> decimal requestId ->
   responses rc2 !! objectiveId = Some resRec).
Proof.
  unfold CreateLedger_request. cbv zeta. intros [= <- <-] Hd Hid.
  unfold responseHandler. cbn [idsToMethods].
  rewrite (Load_Some _ _ _ DirectFundRequestMethod)
    by (unfold safesync.Store; apply lookup_insert_eq).
  cbn [negb]. rewrite decide_True by reflexivity. rewrite Hd, Hid.
  unfold deliver. cbn [responses].
  rewrite (Load_Some _ _ _ (nextChan rc))
    by (unfold safesync.Store; apply lookup_insert_eq).
  intros [= <-]. cbn [responses]. unfold safesync.Delete, safesync.Store.
  split; [reflexivity|]. intros Hne.
  rewrite lookup_delete_ne by congruence. apply lookup_insert_eq.
Qed.

(** X19: two requests under one objective id share one entry of
    [responses]: the second Store replaces the channel of the first, so
    the response to the first request is sent on the channel of the
    second, and on the channel of the first nothing is sent. *)
Theorem CreateLedger_same_objective (rc rc1 rc2 rc3 : RpcClient)
    (objectiveId : engine.ObjectiveId) (id1 id2 : N)
    (request1 request2 data : bytes) (c1 c2 : N)
    (result : ObjectiveResponse) :
  CreateLedger_request rc objectiveId id1 (Ok request1) = Ok (rc1, c1) ->
  CreateLedger_request rc1 objectiveId id2 (Ok request2) = Ok (rc2, c2) ->
  Unmarshal_DirectFundResponse data = Ok (id1, result) ->
  ObjectiveResponse_Id result = objectiveId ->
  decimal id1 <> decimal id2 ->
  responseHandler rc2 id1 data = Ok rc3 ->
  c1 <> c2 /\
  effects rc3
  = effects rc2 ++ [ChanSend c2 (ofObjectiveResponse result)].
Proof.
  unfold CreateLedger_request. cbv zeta.
  intros [= <- <-] [= <- <-] Hd Hid Hne. cbn [nextChan].
  unfold responseHandler. cbn [idsToMethods].
  rewrite (Load_Some _ _ _ DirectFundRequestMethod).
  2:{ unfold safesync.Store. rewrite lookup_insert_ne by congruence.
      apply lookup_insert_eq. }
  cbn [negb]. rewrite decide_True by reflexivity. rewrite Hd, Hid.
  unfold deliver. cbn [responses].
  rewrite (Load_Some _ _ _ (nextChan rc + 1))
    by (unfold safesync.Store; apply lookup_insert_eq).
  intros [= <-]. cbn [effects]. split; [lia | reflexivity].
Qed.

End Client.

End rpc_facts.

Module script_facts.
Import script.

Lemma color_alice : participantColor !! alice = Some blue.
Proof. reflexivity. Qed.

Lemma color_bob : participantColor !! bob = Some yellow.
Proof. reflexivity. Qed.

Lemma color_irene : participantColor !! irene = Some green.
Proof. reflexivity. Qed.

Lemma color_ivan : participantColor !! ivan = Some cyan.
Proof. reflexivity. Qed.

Section Main.
Context (LookPath : bytes -> bytes)
        (AddressString : bytes -> bytes)
        (Start : Cmd -> option error)
        (DeployContracts : result (bytes * bytes * bytes)).

(** X20: a failed deployment stops no server and panics. Otherwise main
    starts, in this order, the servers of alice (blue), bob (yellow),
    irene (green) and ivan (cyan), each [go run . -naaddress ..
    -vpaaddress .. -caaddress .. -config ./scripts/test-configs/p.toml]
    writing in its colour, up to the first whose start fails; it then
    stops exactly the servers it started: all four after the kill
    signal, or, before a panic with the error of the start that failed,
    those started before it. *)
Theorem main_stops_what_it_started :
  match DeployContracts with
  | Err err =>
      main LookPath AddressString Start DeployContracts
      = [StopCommands []; Panicked err]
  | Ok (na, vpa, ca) =>
      let server := fun p c : bytes =>
        {| Path := match LookPath (str "go") with [] => str "go" | lp => lp end;
           Args := [str "go"; str "run"; str "."; str "-naaddress";
                    AddressString na; str "-vpaaddress"; AddressString vpa;
                    str "-caaddress"; AddressString ca; str "-config";
                    str "./scripts/test-configs/" ++ p ++ str ".toml"];
           Stdout := {| writer := 1; color := c |};
           Stderr := {| writer := 2; color := c |} |} in
      let servers :=
        [server (str "alice") (str "[34m"); server (str "bob") (str "[33m");
         server (str "irene") (str "[32m"); server (str "ivan") (str "[36m")] in
      exists n : nat,
        Forall (fun cmd => Start cmd = None) (take n servers) /\
        ((n = 4%nat /\
          main LookPath AddressString Start DeployContracts
          = map Started servers ++ [WaitedForKillSignal; StopCommands servers])
         \/
         (exists failed err,
            servers !! n = Some failed /\ Start failed = Some err /\
            main LookPath AddressString Start DeployContracts
            = map Started (take n servers)
                ++ [StopCommands (take n servers); Panicked err]))
  end.
Proof.
  unfold main. destruct DeployContracts as [[[na vpa] ca]|err]; [|reflexivity].
  cbv zeta. unfold participants. cbn [startServers].
  rewrite color_alice, color_bob, color_irene, color_ivan. cbn [default].
  unfold setupRPCServer, exec_Command, newColorWriter. cbv zeta. cbn [app].
  change alice with (str "alice"). change bob with (str "bob").
  change irene with (str "irene"). change ivan with (str "ivan").
  change blue with (str "[34m"). change yellow with (str "[33m").
  change green with (str "[32m"). change cyan with (str "[36m").
  match goal with
  | |- context [Start ?c] =>
      destruct (Start c) as [e1|] eqn:H1;
      [ exists 0%nat; split; [constructor|]; right; eexists _, e1;
        split; [reflexivity|]; split; [exact H1 | reflexivity] |]
  end.
  match goal with
  | |- context [match Start ?c with _ => _ end] =>
      destruct (Start c) as [e2|] eqn:H2;
      [ exists 1%nat; split; [repeat constructor; exact H1|]; right;
        eexists _, e2; split; [reflexivity|]; split; [exact H2 | reflexivity] |]
  end.
  match goal with
  | |- context [match Start ?c with _ => _ end] =>
      destruct (Start c) as [e3|] eqn:H3;
      [ exists 2%nat; split; [repeat constructor; assumption|]; right;
        eexists _, e3; split; [reflexivity|]; split; [exact H3 | reflexivity] |]
  end.
  match goal with
  | |- context [match Start ?c with _ => _ end] =>
      destruct (Start c) as [e4|] eqn:H4;
      [ exists 3%nat; split; [repeat constructor; assumption|]; right;
        eexists _, e4; split; [reflexivity|]; split; [exact H4 | reflexivity] |]
  end.
  exists 4%nat. split; [repeat constructor; assumption|]. left.
  split; reflexivity.
Qed.

End Main.

End script_facts.

Module helpers_facts.
Import helpers.

Lemma str_inj (s1 s2 : string) : str s1 = str s2 -> s1 = s2.
Proof.
  unfold str. intros H.
  rewrite <- (String.string_of_list_byte_of_string s1),
    <- (String.string_of_list_byte_of_string s2).
  by rewrite H.
Qed.

Lemma decimal_inj (n1 n2 : N) : decimal n1 = decimal n2 -> n1 = n2.
Proof.
  unfold decimal. intros H. apply str_inj in H.
  apply DecimalN.Unsigned.to_uint_inj.
  assert (NilEmpty.uint_of_string (NilEmpty.string_of_uint (N.to_uint n1))
          = NilEmpty.uint_of_string (NilEmpty.string_of_uint (N.to_uint n2)))
    as Hu by (by rewrite H).
  rewrite !NilEmpty.usu in Hu. by injection Hu.
Qed.

Lemma decimal_not_minus (n : N) (l : bytes) : decimal n <> Byte.x2d :: l.
Proof.
  unfold decimal, str. intros H.
  assert (NilEmpty.string_of_uint (N.to_uint n)
          = String.string_of_list_byte (Byte.x2d :: l)) as Hs
    by (by rewrite <- H, String.string_of_list_byte_of_string).
  assert (NilEmpty.uint_of_string (NilEmpty.string_of_uint (N.to_uint n))
          = NilEmpty.uint_of_string
              (String.string_of_list_byte (Byte.x2d :: l))) as Hu
    by (by rewrite Hs).
  rewrite NilEmpty.usu in Hu. cbn in Hu.
  destruct (NilEmpty.uint_of_string _) in Hu; discriminate.
Qed.

Lemma bigInt_String_inj (z1 z2 : Z) :
  bigInt_String z1 = bigInt_String z2 -> z1 = z2.
Proof.
  unfold bigInt_String.
  destruct (Z.ltb_spec z1 0) as [Hz1|Hz1], (Z.ltb_spec z2 0) as [Hz2|Hz2];
    intros Heq.
  - injection Heq as Heq. apply decimal_inj in Heq. lia.
  - symmetry in Heq. by apply decimal_not_minus in Heq.
  - by apply decimal_not_minus in Heq.
  - apply decimal_inj in Heq. lia.
Qed.

(** X21: the id of a voucher is a key: when the string form of a
    32-byte channel id determines the channel id and has one length
    for all of them, two vouchers with the same id have the same
    channel id and the same amount. *)
Theorem id_inj (Destination_String : bytes -> bytes) (b1 b2 : BasicVoucherInfo) :
  (forall c1 c2, length c1 = 32%nat -> length c2 = 32%nat ->
                 Destination_String c1 = Destination_String c2 -> c1 = c2) ->
  (forall c1 c2, length c1 = 32%nat -> length c2 = 32%nat ->
                 length (Destination_String c1) = length (Destination_String c2)) ->
  length (ChannelId b1) = 32%nat -> length (ChannelId b2) = 32%nat ->
  id Destination_String b1 = id Destination_String b2 -> b1 = b2.
Proof.
  intros Hinj Hlen H1 H2. unfold id. intros H.
  apply app_inj_1 in H as [Hc Ha]; [|by apply Hlen].
  apply Hinj in Hc; [|assumption..].
  injection Ha as Ha. apply bigInt_String_inj in Ha.
  destruct b1, b2; cbn in *. congruence.
Qed.

Lemma fold_isDone (ids : list bytes) (completed : gmap bytes bool) (acc : bool) :
  fold_left (fun isDone id => isDone && default false (completed !! id)) ids acc
  = true
  <-> acc = true /\ forall id, id ∈ ids -> default false (completed !! id) = true.
Proof.
  revert acc. induction ids as [|i ids IH]; intros acc; cbn [fold_left].
  - split; [intros ->; split; [done|]; intros id Hid; by apply elem_of_nil in Hid | by intros [-> _]].
  - rewrite IH, andb_true_iff. split.
    + intros [[-> Hi] Hrest]. split; [done|]. intros id Hid.
      apply elem_of_cons in Hid as [-> | Hid]; auto.
    + intros [-> H]. split; [split; [done|]; apply H; by left|].
      intros id Hid. apply H. by right.
Qed.

Lemma waitAndSendOn_signals (ids delivered : list bytes) :
  forall completed : gmap bytes bool,
  snd (waitAndSendOn ids delivered completed) = true
  <-> delivered <> [] /\
      forall id, id ∈ ids ->
        default false (completed !! id) = true \/ id ∈ delivered.
Proof.
  induction delivered as [|got rest IH]; intros completed; cbn [waitAndSendOn].
  - cbn. split; [discriminate | by intros [? _]].
  - cbv zeta.
    assert (forall id,
      default false (<[got := true]> completed !! id) = true
      <-> id = got \/ default false (completed !! id) = true) as Hins.
    { intros id. destruct (decide (got = id)) as [-> | Hne].
      - rewrite lookup_insert_eq. cbn. split; auto.
      - rewrite lookup_insert_ne by done. split; [auto | intros [-> | H]; done]. }
    destruct (fold_left _ ids true) eqn:Hdone.
    + cbn. split; [|done]. intros _. split; [done|].
      apply fold_isDone in Hdone as [_ Hall]. intros id Hid.
      apply Hall, Hins in Hid as [-> | Hid]; [right; by left | by left].
    + rewrite IH. split.
      * intros [_ Hall]. split; [done|]. intros id Hid.
        destruct (Hall id Hid) as [H | H].
        -- apply Hins in H as [-> | H]; [right; by left | by left].
        -- right. by right.
      * intros [_ Hall].
        assert (forall id, id ∈ ids ->
                  default false (<[got := true]> completed !! id) = true
                  \/ id ∈ rest) as Hall'.
        { intros id Hid. destruct (Hall id Hid) as [H | H].
          - left. apply Hins. by right.
          - apply elem_of_cons in H as [-> | H]; [left; apply Hins; by left | by right]. }
        split; [|exact Hall'].
        intros ->. 
        assert (fold_left
                  (fun isDone id =>
                     isDone && default false (<[got := true]> completed !! id))
                  ids true = true) as Habs.
        { apply fold_isDone. split; [done|]. intros id Hid.
          destruct (Hall' id Hid) as [H | H]; [exact H | by apply elem_of_nil in H]. }
        congruence.
Qed.

(** X22: started with an empty map, waitAndSendOn sends the all-done
    signal exactly when at least one objective id was delivered and
    every id waited for is among those delivered; with no id to wait
    for it still waits for a first delivery. *)
Theorem waitAndSendOn_all_done (ids delivered : list bytes) :
  (snd (waitAndSendOn ids delivered ∅) = true
   <-> delivered <> [] /\ forall id, id ∈ ids -> id ∈ delivered) /\
  snd (waitAndSendOn [] [] ∅) = false.
Proof.
  split; [|reflexivity]. rewrite waitAndSendOn_signals. split.
  - intros [Hne Hall]. split; [done|]. intros id Hid.
    destruct (Hall id Hid) as [H | H]; [|done].
    rewrite lookup_empty in H. discriminate.
  - intros [Hne Hall]. split; [done|]. intros id Hid. right. by apply Hall.
Qed.

End helpers_facts.

Module digest_facts.
Import crypto.

(** The number of decimal digits of [n]. *)
Lemma length_str (s : string) : length (str s) = String.length s.
Proof.
  unfold str, String.list_byte_of_string. rewrite List.length_map.
  induction s; cbn; congruence.
Qed.

Lemma length_string_of_uint (d : Decimal.uint) :
  String.length (NilEmpty.string_of_uint d) = Decimal.nb_digits d.
Proof. induction d; cbn; congruence. Qed.

Lemma length_decimal (n : N) :
  length (decimal n) = Decimal.nb_digits (N.to_uint n).
Proof. unfold decimal. by rewrite length_str, length_string_of_uint. Qed.

Lemma usize_nb_digits (d : Decimal.uint) :
  DecimalPos.Unsigned.usize d = N.of_nat (Decimal.nb_digits d).
Proof.
  induction d; cbn [DecimalPos.Unsigned.usize Decimal.nb_digits];
    rewrite ?IHd; lia.
Qed.

Lemma of_lu_lt (d : Decimal.uint) :
  DecimalPos.Unsigned.of_lu d < 10 ^ DecimalPos.Unsigned.usize d.
Proof.
  induction d; cbn [DecimalPos.Unsigned.of_lu DecimalPos.Unsigned.usize];
    rewrite ?N.pow_succ_r'; [cbn; lia | lia..].
Qed.

Lemma usize_rev (d : Decimal.uint) :
  DecimalPos.Unsigned.usize (Decimal.rev d) = DecimalPos.Unsigned.usize d.
Proof. by rewrite !usize_nb_digits, DecimalFacts.nb_digits_rev. Qed.

(** The value of a numeral whose first digit is [k], not 0, followed by
    the digits [l]. *)
Lemma of_uint_acc_bounds (l : Decimal.uint) (k : positive) :
  (Npos k < 10) ->
  10 ^ DecimalPos.Unsigned.usize l <= Npos (Pos.of_uint_acc l k)
  /\ Npos (Pos.of_uint_acc l k) < 10 ^ N.succ (DecimalPos.Unsigned.usize l).
Proof.
  intros Hk. rewrite DecimalPos.Unsigned.of_uint_acc_rev, N.pow_succ_r'.
  pose proof (of_lu_lt (Decimal.rev l)) as Hlt. rewrite usize_rev in Hlt.
  assert (10 ^ DecimalPos.Unsigned.usize l <> 0) by (apply N.pow_nonzero; lia).
  nia.
Qed.

(** A positive number lies between the powers of ten that its number
    of digits names. *)
Lemma to_uint_bounds (p : positive) :
  exists k : nat,
    Decimal.nb_digits (Pos.to_uint p) = Datatypes.S k /\
    10 ^ N.of_nat k <= Npos p < 10 ^ N.of_nat (Datatypes.S k).
Proof.
  pose proof (DecimalPos.Unsigned.of_to p) as Hof.
  pose proof (DecimalPos.Unsigned.to_of (Pos.to_uint p)) as Hto.
  rewrite Hof in Hto. cbn [N.to_uint] in Hto.
  pose proof (DecimalPos.Unsigned.to_uint_nonzero p) as Hnz.
  destruct (Pos.to_uint p) as [|l|l|l|l|l|l|l|l|l|l] eqn:Hd;
    [ by destruct (DecimalPos.Unsigned.to_uint_nonnil p)
    | exfalso
    | exists (Decimal.nb_digits l); split; [reflexivity|];
      rewrite Nat2N.inj_succ, <- usize_nb_digits, <- Hof; cbn [Pos.of_uint];
      apply of_uint_acc_bounds; lia .. ].
  unfold Decimal.unorm in Hto. cbn [Decimal.nzhead] in Hto.
  pose proof (DecimalFacts.nb_digits_nzhead l) as Hle.
  destruct (Decimal.nzhead l) eqn:Hnzh;
    [ by apply Hnz
    | first [ discriminate Hto
            | injection Hto as ->; cbn [Decimal.nb_digits] in Hle; lia ] .. ].
Qed.

Lemma length_decimal_pos (n : N) : (1 <= length (decimal n))%nat.
Proof.
  rewrite length_decimal. destruct n as [|p]; [cbn; lia|].
  destruct (to_uint_bounds p) as (k & Hk & _). cbn [N.to_uint]. lia.
Qed.

(** A larger number has at least as many digits. *)
Lemma length_decimal_mono (n1 n2 : N) :
  n1 <= n2 -> (length (decimal n1) <= length (decimal n2))%nat.
Proof.
  intros Hle. destruct n1 as [|p1].
  { apply (length_decimal_pos n2). }
  destruct n2 as [|p2]; [lia|].
  rewrite !length_decimal. cbn [N.to_uint].
  destruct (to_uint_bounds p1) as (k1 & -> & Hlo & _).
  destruct (to_uint_bounds p2) as (k2 & -> & _ & Hhi).
  assert (10 ^ N.of_nat k1 < 10 ^ N.of_nat (Datatypes.S k2)) as Hpow by lia.
  apply N.pow_lt_mono_r_iff in Hpow; lia.
Qed.

(** The text that is hashed determines the message: the length in front
    of the message leaves one way only to cut it. *)
Lemma framing_inj (m1 m2 : bytes) :
  decimal (N.of_nat (length m1)) ++ m1 = decimal (N.of_nat (length m2)) ++ m2 ->
  m1 = m2.
Proof.
  intros H.
  assert (length m1 = length m2) as Hlen.
  { assert (length (decimal (N.of_nat (length m1)) ++ m1)
            = length (decimal (N.of_nat (length m2)) ++ m2)) as Hl by (by rewrite H).
    rewrite !length_app in Hl.
    destruct (Nat.lt_trichotomy (length m1) (length m2)) as [Hlt | [Heq | Hgt]];
      [|exact Heq|].
    - pose proof (length_decimal_mono (N.of_nat (length m1))
                    (N.of_nat (length m2))) as Hm. lia.
    - pose proof (length_decimal_mono (N.of_nat (length m2))
                    (N.of_nat (length m1))) as Hm. lia. }
  rewrite Hlen in H. by apply app_inv_head in H.
Qed.

Section WithPrimitives.
Context {P : Primitives}.

(** X23: the digest tells messages apart as far as Keccak256 does: two
    different messages with the same digest give two different texts
    with the same Keccak256 hash. *)
Theorem computeEthereumSignedMessageDigest_collision (m1 m2 : bytes) :
  computeEthereumSignedMessageDigest m1 = computeEthereumSignedMessageDigest m2 ->
  m1 <> m2 ->
  exists a b : bytes, a <> b /\ Keccak256 a = Keccak256 b.
Proof.
  intros H Hne. unfold computeEthereumSignedMessageDigest in H.
  eexists _, _. split; [|exact H].
  intros Heq. apply app_inv_head in Heq. by apply Hne, framing_inj.
Qed.

End WithPrimitives.

Lemma computeEthereumSignedMessageDigest_collision_witness :
  exists a b : bytes,
    a <> b /\ @Keccak256 sample.primitives a = @Keccak256 sample.primitives b.
Proof.
  refine (@computeEthereumSignedMessageDigest_collision sample.primitives
            (replicate 10 Byte.x00) (replicate 9 Byte.x00 ++ [Byte.x01])
            eq_refl _).
  discriminate.
Defined.

End digest_facts.

Module witnesses.
Import rpc.


Lemma CreateLedger_response_witness :
  exists rc2 : RpcClient,
    responseHandler sample_rpc.pending 7 sample_rpc.response = Ok rc2 /\
    effects rc2
    = effects sample_rpc.fresh
        ++ [@SendMessage sample_rpc.serde (str "direct_fund") [Byte.x01];
            @ChanSend sample_rpc.serde 1
              (@ofObjectiveResponse sample_rpc.serde sample_rpc.ledger)] /\
    idsToMethods rc2 !! decimal 7 = None /\
    @CreateLedger_result sample_rpc.serde
      (@ofObjectiveResponse sample_rpc.serde sample_rpc.ledger)
    = Ok sample_rpc.ledger.
Proof.
  exact (@rpc_facts.CreateLedger_response sample_rpc.serde sample_rpc.fresh
           sample_rpc.pending sample_rpc.ledger 7 [Byte.x01]
           sample_rpc.response 1 sample_rpc.ledger eq_refl eq_refl eq_refl).
Defined.

Lemma CreateLedger_response_channel_stays_witness :
  responses sample_rpc.answered
  = delete (decimal 7)
      (<[sample_rpc.ledger := 1]> (responses sample_rpc.fresh)) /\
  (sample_rpc.ledger <> decimal 7 ->
   responses sample_rpc.answered !! sample_rpc.ledger = Some 1).
Proof.
  exact (@rpc_facts.CreateLedger_response_channel_stays sample_rpc.serde
           sample_rpc.fresh sample_rpc.pending sample_rpc.answered
           sample_rpc.ledger 7 [Byte.x01] sample_rpc.response 1
           sample_rpc.ledger eq_refl eq_refl eq_refl eq_refl).
Defined.

Lemma CreateLedger_same_objective_witness :
  1 <> 2 /\
  effects sample_rpc.answeredTwice
  = effects sample_rpc.pendingTwice
      ++ [@ChanSend sample_rpc.serde 2
            (@ofObjectiveResponse sample_rpc.serde sample_rpc.ledger)].
Proof.
  refine (@rpc_facts.CreateLedger_same_objective sample_rpc.serde
            sample_rpc.fresh sample_rpc.pending sample_rpc.pendingTwice
            sample_rpc.answeredTwice sample_rpc.ledger 7 8
            [Byte.x01] [Byte.x02] sample_rpc.response 1 2 sample_rpc.ledger
            eq_refl eq_refl eq_refl eq_refl _ eq_refl).
  discriminate.
Defined.

Lemma Encode_inj_32 (c1 c2 : bytes) :
  length c1 = 32%nat -> length c2 = 32%nat ->
  hexutil.Encode c1 = hexutil.Encode c2 -> c1 = c2.
Proof.
  intros _ _ H. unfold hexutil.Encode in H. apply app_inv_head in H.
  by apply signature_facts.hex_Encode_inj.
Qed.

Lemma Encode_length_32 (c1 c2 : bytes) :
  length c1 = 32%nat -> length c2 = 32%nat ->
  length (hexutil.Encode c1) = length (hexutil.Encode c2).
Proof.
  assert (forall c, length (hexutil.hex_Encode c) = (2 * length c)%nat) as Hlen
    by (induction c; cbn; lia).
  intros H1 H2. unfold hexutil.Encode. by rewrite !length_app, !Hlen, H1, H2.
Qed.

Lemma id_inj_witness :
  sample_rpc.voucher
  = {| helpers.Amount := 5; helpers.ChannelId := replicate 32 Byte.xab |}.
Proof.
  exact (helpers_facts.id_inj hexutil.Encode sample_rpc.voucher
           {| helpers.Amount := 5; helpers.ChannelId := replicate 32 Byte.xab |}
           Encode_inj_32 Encode_length_32 eq_refl eq_refl eq_refl).
Defined.

End witnesses.
